(** * d2s / s2d: a multi-tone audio modem

    A shallow embedding of the encoder [d2s.c] and of the decoder [s2d.c],
    and the properties of the tone protocol, of the demodulator, of the
    drift corrector and of the acquisition state machine.

    - C integers are [Z], every store into a narrower type written out with
      its wrap-around ([short_of], [int16_of], [uint16_of], [uint32_of]).
    - C [float] and [double] are IEEE-754 binary32 and binary64 values, as
      [spec_float] with the operations of the standard library's [SpecFloat]
      at precision 24 and 53 (round to nearest, ties to even); every
      operation is evaluated in the format of its C type.
    - [sin] and [atan2f] come from the C library; the model takes them from
      a [Libm] instance.  The theorems on the steps of the programs hold
      for every instance; the evaluations on concrete inputs use the
      software library [SoftLibm]. *)

From Stdlib Require Import ZArith List Bool Lia.
From Stdlib Require Import SpecFloat.
Import ListNotations.
Local Open Scope Z_scope.

(** ** Machine integers *)

Definition wrap_unsigned (w z : Z) : Z := z mod 2 ^ w.

Definition wrap_signed (w z : Z) : Z :=
  (z + 2 ^ (w - 1)) mod 2 ^ w - 2 ^ (w - 1).

(** [short] and [int16_t] are the same 16-bit type on the platforms the
    program targets; an out-of-range store wraps. *)
Definition short_of : Z -> Z := wrap_signed 16.
Definition int16_of : Z -> Z := wrap_signed 16.
Definition uint16_of : Z -> Z := wrap_unsigned 16.
Definition uint32_of : Z -> Z := wrap_unsigned 32.

Definition is_uint16 (z : Z) : Prop := 0 <= z < 65536.

(** ** Floating point *)

(** The integer part of a float, rounded toward zero; 0 for NaN and the
    infinities (C leaves that conversion undefined). *)
Definition float_trunc (x : spec_float) : Z :=
  match x with
  | S754_finite s m e => cond_Zopp s (Z.shiftl (Zpos m) e)
  | _ => 0
  end.

(** [roundf]/[round]: nearest integer, halfway cases away from zero.  A
    finite float with a non-negative exponent is an integer already. *)
Definition float_round (prec emax : Z) (x : spec_float) : spec_float :=
  match x with
  | S754_finite s m (Zneg p) =>
      let q := Z.shiftr (Zpos m) (Zpos p) in
      let r := Zpos m - Z.shiftl q (Zpos p) in
      let n := if 2 ^ Zpos p <=? 2 * r then q + 1 else q in
      binary_normalize prec emax (cond_Zopp s n) 0 s
  | _ => x
  end.

(** Re-rounding of a float into another format: exact when widening. *)
Definition float_cast (prec emax : Z) (x : spec_float) : spec_float :=
  match x with
  | S754_finite s m e => binary_round prec emax s m e
  | _ => x
  end.

Module F32.
Definition prec : Z := 24.
Definition emax : Z := 128.
Definition of_Z (z : Z) : spec_float := binary_normalize prec emax z 0 false.
Definition add : spec_float -> spec_float -> spec_float := SFadd prec emax.
Definition sub : spec_float -> spec_float -> spec_float := SFsub prec emax.
Definition mul : spec_float -> spec_float -> spec_float := SFmul prec emax.
Definition div : spec_float -> spec_float -> spec_float := SFdiv prec emax.
Definition round : spec_float -> spec_float := float_round prec emax.
Definition of_double : spec_float -> spec_float := float_cast prec emax.
Definition zero : spec_float := S754_zero false.
Definition one : spec_float := of_Z 1.
End F32.

Module F64.
Definition prec : Z := 53.
Definition emax : Z := 1024.
Definition of_Z (z : Z) : spec_float := binary_normalize prec emax z 0 false.
Definition add : spec_float -> spec_float -> spec_float := SFadd prec emax.
Definition sub : spec_float -> spec_float -> spec_float := SFsub prec emax.
Definition mul : spec_float -> spec_float -> spec_float := SFmul prec emax.
Definition div : spec_float -> spec_float -> spec_float := SFdiv prec emax.
Definition sqrt : spec_float -> spec_float := SFsqrt prec emax.
Definition of_float : spec_float -> spec_float := float_cast prec emax.
Definition zero : spec_float := S754_zero false.
Definition one : spec_float := of_Z 1.
(** [x > y] and [x < y] of C: false as soon as one side is NaN. *)
Definition ltb (x y : spec_float) : bool := SFltb x y.
Definition gtb (x y : spec_float) : bool := SFltb y x.
(** The literals of the two programs. *)
Definition half : spec_float := S754_finite false 4503599627370496 (-53).
Definition quarter : spec_float := S754_finite false 4503599627370496 (-54).
Definition lit_0_16 : spec_float := S754_finite false 5764607523034235 (-55).
End F64.

(** [M_PI], 3.141592653589793, as the nearest binary64 value. *)
Definition M_PI : spec_float := S754_finite false 7074237752028440 (-51).

(** The two functions of the C library the programs call: [sin] on
    [double] (through [<tgmath.h>] in the decoder, where the argument is a
    [double]) and [atan2f] on [float]. *)
Class Libm : Type := {
  libm_sin : spec_float -> spec_float;
  libm_atan2f : spec_float -> spec_float -> spec_float
}.

(** ** The decoder, [s2d.c] *)

Definition BIT_COUNT : Z := 9.
Definition SAMPLE_COUNT_MIN : Z := BIT_COUNT * 2 + 1.

(** [struct fourier].  The flexible array [sincos_components] of the C
    struct is the array of the same name that follows it in
    [struct decoder] (the [static_assert] of the source says so): both
    names denote one block of [(sine, cosine)] pairs, kept here. *)
Record fourier : Type := mk_fourier {
  fourier_i : Z;
  frequency_count : Z;
  sample_count : Z;
  sincos_components : list (spec_float * spec_float)
}.

Inductive decoder_state : Type :=
| DECODER_INIT
| DECODER_DETECT_POLARITY
| DECODER_DETECT_WAVE_FIRST_HALF
| DECODER_DETECT_WAVE_SECOND_HALF
| DECODER_DETECT_CALIBRATE
| DECODER_DECODE_DATA
| DECODER_EOF.

(** The enumerator values, for [decoder->state >= DECODER_DETECT_CALIBRATE]. *)
Definition state_index (s : decoder_state) : Z :=
  match s with
  | DECODER_INIT => 0
  | DECODER_DETECT_POLARITY => 1
  | DECODER_DETECT_WAVE_FIRST_HALF => 2
  | DECODER_DETECT_WAVE_SECOND_HALF => 3
  | DECODER_DETECT_CALIBRATE => 4
  | DECODER_DECODE_DATA => 5
  | DECODER_EOF => 6
  end.

Record decoder : Type := mk_decoder {
  state : decoder_state;
  polarity : bool;
  phase : Z;
  phase2 : Z;
  phase3 : Z;
  baseline : Z;
  signal_max : Z;
  signal_min : Z;
  d_fourier : fourier
}.

Definition set_state (d : decoder) (s : decoder_state) : decoder :=
  mk_decoder s (polarity d) (phase d) (phase2 d) (phase3 d)
             (baseline d) (signal_max d) (signal_min d) (d_fourier d).
Definition set_polarity (d : decoder) (b : bool) : decoder :=
  mk_decoder (state d) b (phase d) (phase2 d) (phase3 d)
             (baseline d) (signal_max d) (signal_min d) (d_fourier d).
Definition set_phase (d : decoder) (p : Z) : decoder :=
  mk_decoder (state d) (polarity d) p (phase2 d) (phase3 d)
             (baseline d) (signal_max d) (signal_min d) (d_fourier d).
Definition set_phase2 (d : decoder) (p : Z) : decoder :=
  mk_decoder (state d) (polarity d) (phase d) p (phase3 d)
             (baseline d) (signal_max d) (signal_min d) (d_fourier d).
Definition set_phase3 (d : decoder) (p : Z) : decoder :=
  mk_decoder (state d) (polarity d) (phase d) (phase2 d) p
             (baseline d) (signal_max d) (signal_min d) (d_fourier d).
Definition set_baseline (d : decoder) (b : Z) : decoder :=
  mk_decoder (state d) (polarity d) (phase d) (phase2 d) (phase3 d)
             b (signal_max d) (signal_min d) (d_fourier d).
Definition set_signal_max (d : decoder) (m : Z) : decoder :=
  mk_decoder (state d) (polarity d) (phase d) (phase2 d) (phase3 d)
             (baseline d) m (signal_min d) (d_fourier d).
Definition set_signal_min (d : decoder) (m : Z) : decoder :=
  mk_decoder (state d) (polarity d) (phase d) (phase2 d) (phase3 d)
             (baseline d) (signal_max d) m (d_fourier d).
Definition set_fourier (d : decoder) (fo : fourier) : decoder :=
  mk_decoder (state d) (polarity d) (phase d) (phase2 d) (phase3 d)
             (baseline d) (signal_max d) (signal_min d) fo.
Definition set_sample_count (d : decoder) (n : Z) : decoder :=
  set_fourier d (mk_fourier (fourier_i (d_fourier d))
                            (frequency_count (d_fourier d)) n
                            (sincos_components (d_fourier d))).

Definition DECODER_RET_EOF : Z := -1.
Definition DECODER_RET_NO_DATA : Z := -2.
Definition DECODER_RET_ERROR : Z := -3.

Definition TIMING_SIGNAL_THRESHOLD : Z := 64.

(** Store into [a[f]]; out of bounds (undefined in C) nothing is stored. *)
Fixpoint array_set {A : Type} (a : list A) (f : nat) (x : A) : list A :=
  match a, f with
  | [], _ => []
  | _ :: t, O => x :: t
  | h :: t, S f' => h :: array_set t f' x
  end.

Definition quad (x : spec_float) : spec_float := F32.mul x x.

(** The cycles per window of the reference wave that carrier [f] is
    correlated with ([f+1] in the phase [(f+1)*i / sample_count]), and the
    bit carrier [f] decides ([BIT_COUNT-f-1] in [decoder_decode_byte]). *)
Definition carrier_cycles (f : nat) : Z := Z.of_nat f + 1.
Definition carrier_bit (f : nat) : Z := BIT_COUNT - Z.of_nat f - 1.

(** [0.5*0.5], a [double]. *)
Definition power_threshold : spec_float := F64.mul F64.half F64.half.

Section Decoder.
Context {L : Libm}.

Definition nsin (f : spec_float) : spec_float :=
  F32.of_double
    (libm_sin (F64.mul (F64.of_float (F32.mul f (F32.of_Z 2))) M_PI)).

Definition ncos (f : spec_float) : spec_float :=
  nsin (F32.of_double (F64.add (F64.of_float f) F64.quarter)).

Definition sincos_to_phase (x y : spec_float) : spec_float :=
  F32.of_double
    (F64.div (F64.of_float (libm_atan2f y x)) (F64.mul (F64.of_Z 2) M_PI)).

(** One turn of the loop of [fourier_add_sample]. *)
Definition add_component (fo : fourier) (sample : spec_float)
    (c : list (spec_float * spec_float)) (f : nat)
  : list (spec_float * spec_float) :=
  let i := F32.div (F32.of_Z (carrier_cycles f * fourier_i fo))
                   (F32.of_Z (sample_count fo)) in
  let n := F32.of_Z (sample_count fo) in
  let '(s, co) := nth f c (F32.zero, F32.zero) in
  array_set c f
    (F32.add s (F32.div (F32.mul (F32.mul (nsin i) sample) (F32.of_Z 25)) n),
     F32.add co (F32.div (F32.mul (F32.mul (ncos i) sample) (F32.of_Z 25)) n)).

Definition fourier_add_sample (fo : fourier) (sample : spec_float)
  : fourier * bool :=
  let c := fold_left (add_component fo sample)
                     (seq 0 (Z.to_nat (frequency_count fo)))
                     (sincos_components fo) in
  let i' := short_of (fourier_i fo + 1) in
  (mk_fourier i' (frequency_count fo) (sample_count fo) c,
   sample_count fo <=? i').

End Decoder.

Definition fourier_to_frequency (fo : fourier) : list spec_float :=
  map (fun f => let '(s, co) := nth f (sincos_components fo)
                                    (F32.zero, F32.zero) in
                F32.add (quad s) (quad co))
      (seq 0 (Z.to_nat (frequency_count fo))).

Definition fourier_reset (fo : fourier) : fourier :=
  let n := Z.to_nat (frequency_count fo) in
  mk_fourier 0 (frequency_count fo) (sample_count fo)
    (map (fun _ => (F32.zero, F32.zero)) (firstn n (sincos_components fo))
     ++ skipn n (sincos_components fo)).

(** One turn of the thresholding loop of [decoder_decode_byte]. *)
Definition demod_bit (frequency : list spec_float) (byte : Z) (f : nat) : Z :=
  if F64.gtb (F64.of_float (nth f frequency F32.zero)) power_threshold
  then Z.lor byte (Z.shiftl 1 (carrier_bit f))
  else byte.

Definition demod_bits (count : nat) (frequency : list spec_float) : Z :=
  fold_left (demod_bit frequency) (seq 0 count) 0.

(** [decoder->phase = round(phase * sample_count)]: [roundf], then the
    conversion of an integral [float] to [int16_t]. *)
Definition phase_to_samples (ph : spec_float) (sample_count : Z) : Z :=
  int16_of (float_trunc (F32.round (F32.mul ph (F32.of_Z sample_count)))).

Definition decoder_update_magnitude (d : decoder) (sample : Z) : decoder :=
  let d := if signal_max d <? sample then set_signal_max d sample else d in
  if sample <? signal_min d then set_signal_min d sample else d.

(** The statement at lines 218-224 of [s2d.c], repeated at lines 241-247. *)
Definition drift_consistent (d : decoder) : bool :=
  negb (phase d =? 0) && negb (phase2 d =? 0) && negb (phase3 d =? 0)
  && Bool.eqb (phase d <? 0) (phase2 d <? 0)
  && Bool.eqb (phase2 d <? 0) (phase3 d <? 0).

Definition drift_correct (d : decoder) : decoder :=
  if drift_consistent d then
    let avg := Z.quot (phase d + phase2 d + phase3 d) 3 in
    set_phase2
      (set_sample_count d (short_of (sample_count (d_fourier d) - avg))) 0
  else
    set_phase2 (set_phase3 d (phase2 d)) (phase d).

Section DecoderStep.
Context {L : Libm}.

Definition decoder_decode_byte (d : decoder) (sample : spec_float)
  : decoder * Z :=
  let '(fo, complete) := fourier_add_sample (d_fourier d) sample in
  if complete then
    let frequency := fourier_to_frequency fo in
    let byte := demod_bits (Z.to_nat (frequency_count fo)) frequency in
    let ph :=
      if Z.land byte 256 =? 0 then 0
      else
        let '(s, co) := nth 0 (sincos_components fo) (F32.zero, F32.zero) in
        phase_to_samples (sincos_to_phase s co) (sample_count fo) in
    let d' := set_fourier (set_phase d ph) (fourier_reset fo) in
    (d', if byte =? 0 then DECODER_RET_EOF else Z.land byte 255)
  else
    (set_fourier d fo, DECODER_RET_NO_DATA).

(** The normalized sample computed at the head of [decoder_decode] once
    the state is at or past [DECODER_DETECT_CALIBRATE]. *)
Definition normalize (d : decoder) (sample : Z) : spec_float :=
  let fsample :=
    F32.div (F32.of_Z (sample - signal_min d))
            (F32.of_Z (signal_max d - signal_min d)) in
  if polarity d then fsample else F32.sub F32.one fsample.

(** [case DECODER_DETECT_WAVE_FIRST_HALF], also reached by fall-through. *)
Definition detect_wave_first_half (d : decoder) (sample : Z) : decoder :=
  let d := set_sample_count d (short_of (sample_count (d_fourier d) + 1)) in
  let diff := if polarity d then signal_max d - sample
              else sample - signal_min d in
  let d := if signal_max d - signal_min d <? diff
           then set_state d DECODER_DETECT_WAVE_SECOND_HALF else d in
  decoder_update_magnitude d sample.

Definition detect_polarity (d : decoder) (sample : Z) : decoder :=
  let diff := sample - baseline d in
  let d := decoder_update_magnitude d sample in
  if (TIMING_SIGNAL_THRESHOLD <? diff) || (diff <? - TIMING_SIGNAL_THRESHOLD)
  then
    let d := set_polarity d (0 <? diff) in
    let d := set_state d DECODER_DETECT_WAVE_FIRST_HALF in
    let d := set_signal_max d (baseline d) in
    let d := set_signal_min d (baseline d) in
    detect_wave_first_half d sample
  else
    set_baseline d (uint16_of (baseline d + Z.quot diff 8)).

Definition detect_wave_second_half (d : decoder) (sample : Z) : decoder :=
  let d := set_sample_count d (short_of (sample_count (d_fourier d) + 1)) in
  let d := decoder_update_magnitude d sample in
  if Bool.eqb (Z.quot (signal_max d + signal_min d) 2 <? sample) (polarity d)
  then
    let d := if sample_count (d_fourier d) <? SAMPLE_COUNT_MIN
             then set_sample_count d SAMPLE_COUNT_MIN else d in
    let d := set_state d DECODER_DETECT_CALIBRATE in
    set_phase3 (set_phase2 (set_phase d 0) 0) 0
  else d.

(** The tail shared by the two decoding states once a byte came out:
    drift correction, the start byte (in calibration only), and the extra
    demodulation step for a positive phase. *)
Definition after_byte (calibrating : bool) (d : decoder) (byte : Z)
    (fsample : spec_float) : decoder :=
  let d := drift_correct d in
  let d := if calibrating && (byte =? 62)
           then set_state d DECODER_DECODE_DATA else d in
  if 0 <? phase d then fst (decoder_decode_byte d fsample) else d.

Definition detect_calibrate (d : decoder) (fsample : spec_float)
  : decoder * Z :=
  if phase d <? 0 then
    (set_phase d (int16_of (phase d + 1)), DECODER_RET_NO_DATA)
  else
    let '(d, byte) := decoder_decode_byte d fsample in
    if byte =? DECODER_RET_EOF then
      (set_state d DECODER_INIT, DECODER_RET_NO_DATA)
    else if 0 <=? byte then
      (after_byte true d byte fsample, DECODER_RET_NO_DATA)
    else (d, DECODER_RET_NO_DATA).

Definition decode_data (d : decoder) (fsample : spec_float) : decoder * Z :=
  if phase d <? 0 then
    (set_phase d (int16_of (phase d + 1)), DECODER_RET_NO_DATA)
  else
    let '(d, byte) := decoder_decode_byte d fsample in
    let d := if byte =? DECODER_RET_EOF then set_state d DECODER_EOF else d in
    if 0 <=? byte then (after_byte false d byte fsample, byte)
    else (d, byte).

Definition decoder_decode (d : decoder) (sample : Z) : decoder * Z :=
  match state d with
  | DECODER_INIT =>
      (set_sample_count
         (set_state (set_baseline d sample) DECODER_DETECT_POLARITY) 0,
       DECODER_RET_NO_DATA)
  | DECODER_DETECT_POLARITY => (detect_polarity d sample, DECODER_RET_NO_DATA)
  | DECODER_DETECT_WAVE_FIRST_HALF =>
      (detect_wave_first_half d sample, DECODER_RET_NO_DATA)
  | DECODER_DETECT_WAVE_SECOND_HALF =>
      (detect_wave_second_half d sample, DECODER_RET_NO_DATA)
  | DECODER_DETECT_CALIBRATE => detect_calibrate d (normalize d sample)
  | DECODER_DECODE_DATA => decode_data d (normalize d sample)
  | DECODER_EOF => (d, DECODER_RET_EOF)
  end.

(** The loop of [main]: samples are fed one at a time, every non-negative
    result is written out, and the loop stops at end-of-stream. *)
Fixpoint decode_stream (d : decoder) (samples : list Z) : decoder * list Z :=
  match samples with
  | [] => (d, [])
  | x :: rest =>
      let '(d', byte) := decoder_decode d x in
      if byte =? DECODER_RET_EOF then (d', [])
      else
        let '(d'', out) := decode_stream d' rest in
        (d'', if 0 <=? byte then byte :: out else out)
  end.

(** The results of consecutive calls of [decoder_decode]. *)
Fixpoint decoder_run (d : decoder) (samples : list Z) : decoder * list Z :=
  match samples with
  | [] => (d, [])
  | x :: rest =>
      let '(d', r) := decoder_decode d x in
      let '(d'', rs) := decoder_run d' rest in
      (d'', r :: rs)
  end.

End DecoderStep.

(** [struct decoder decoder = { .fourier.frequency_count = BIT_COUNT }]:
    everything else is zero. *)
Definition decoder_init : decoder :=
  mk_decoder DECODER_INIT false 0 0 0 0 0 0
    (mk_fourier 0 BIT_COUNT 0
       (repeat (F32.zero, F32.zero) (Z.to_nat BIT_COUNT))).

(** The states [main] can bring the decoder into: a [uint16_t] sample at
    each call. *)
Inductive reachable {L : Libm} : decoder -> Prop :=
| reachable_init : reachable decoder_init
| reachable_step : forall d sample,
    reachable d -> is_uint16 sample ->
    reachable (fst (decoder_decode d sample)).

(** ** The encoder, [d2s.c] *)

Definition SAMPLE_COUNT : Z := SAMPLE_COUNT_MIN + 1.
Definition SYNC_SIGNAL : Z := 256.

(** [putchar] writes its argument converted to [unsigned char]. *)
Definition putchar (c : Z) : Z := c mod 256.

(** The product is negative for a negative amplitude; its conversion to
    [uint32_t] is modelled as on x86-64, truncated toward zero and reduced
    modulo 2^32. *)
Definition write_sample (x : spec_float) : list Z :=
  let x := if F64.gtb x (F64.of_Z 1) then F64.of_Z 1 else x in
  let x := if F64.ltb x (F64.of_Z (-1)) then F64.of_Z (-1) else x in
  let sample := uint32_of (float_trunc (F64.mul x (F64.of_Z 2147483647))) in
  [putchar sample; putchar (Z.shiftr sample 8);
   putchar (Z.shiftr sample 16); putchar (Z.shiftr sample 24)].

(** [ch & (1<<b)], as a truth value. *)
Definition bit_selected (ch : Z) (b : nat) : bool :=
  negb (Z.land ch (Z.shiftl 1 (Z.of_nat b)) =? 0).

(** The cycles per window of the tone bit [b] switches on: the factor
    [(BIT_COUNT-b)] of the sine's argument in [print_byte]. *)
Definition tone_cycles (b : nat) : Z := BIT_COUNT - Z.of_nat b.

(** [2.*M_PI*k*t/SAMPLE_COUNT] *)
Definition wave_arg (k t : Z) : spec_float :=
  F64.div
    (F64.mul (F64.mul (F64.mul (F64.of_Z 2) M_PI) (F64.of_Z k)) (F64.of_Z t))
    (F64.of_Z SAMPLE_COUNT).

(** The tones of a symbol, in the order the inner loop of [print_byte]
    adds them. *)
Definition symbol_tones (ch : Z) : list Z :=
  map tone_cycles (filter (bit_selected ch) (seq 0 (Z.to_nat BIT_COUNT))).

Section Encoder.
Context {L : Libm}.

(** One turn of the inner loop of [print_byte]. *)
Definition add_tone (ch t : Z) (sample : spec_float) (b : nat) : spec_float :=
  if bit_selected ch b
  then F64.add sample (libm_sin (wave_arg (tone_cycles b) t))
  else sample.

Definition symbol_sample (g_amplitude : spec_float) (ch t : Z) : spec_float :=
  F64.mul (fold_left (add_tone ch t) (seq 0 (Z.to_nat BIT_COUNT)) F64.zero)
          g_amplitude.

(** A superposition of sine tones, given by their cycles per window. *)
Definition superposition (tones : list Z) (t : Z) : spec_float :=
  fold_left (fun s k => F64.add s (libm_sin (wave_arg k t))) tones F64.zero.

(** [print_byte], with the global [g_amplitude] as an argument. *)
Definition print_byte (g_amplitude : spec_float) (ch : Z) : list Z :=
  flat_map (fun t => write_sample (symbol_sample g_amplitude ch (Z.of_nat t)))
           (seq 0 (Z.to_nat SAMPLE_COUNT)).

(** The symbols [main] prints for the input bytes [input], each with the
    amplitude in force. *)
Definition frame (input : list Z) : list (spec_float * Z) :=
  [(F64.of_Z 1, 0); (F64.of_Z 1, 0)]
  ++ repeat (F64.of_Z 1, SYNC_SIGNAL) 8
  ++ [(F64.lit_0_16, Z.lor 62 SYNC_SIGNAL)]
  ++ map (fun ch => (F64.lit_0_16, Z.lor ch SYNC_SIGNAL)) input
  ++ [(F64.lit_0_16, 0); (F64.lit_0_16, 0)].

(** What [main] writes after the WAV header. *)
Definition encode (input : list Z) : list Z :=
  flat_map (fun s => print_byte (fst s) (snd s)) (frame input).

End Encoder.

(** ** The two programs end to end *)

(** [fread(&x, 4, 1, stdin)] on a little-endian machine: four bytes make
    one [int32_t]; a trailing partial sample ends the loop. *)
Fixpoint read_samples (bytes : list Z) : list Z :=
  match bytes with
  | b0 :: b1 :: b2 :: b3 :: rest =>
      wrap_signed 32 (b0 + 256 * b1 + 65536 * b2 + 16777216 * b3)
      :: read_samples rest
  | _ => []
  end.

(** [(sample+1)/2*SIGNAL_STREANGTH] with [sample = (float)x / 0x80000000lu],
    converted to the [uint16_t] parameter of [decoder_decode]. *)
Definition pcm_to_sample (x : Z) : Z :=
  let sample := F32.div (F32.of_Z x) (F32.of_Z 2147483648) in
  uint16_of
    (float_trunc
       (F32.mul (F32.div (F32.add sample (F32.of_Z 1)) (F32.of_Z 2))
                (F32.of_Z 1024))).

Definition s2d_main {L : Libm} (stdin : list Z) : list Z :=
  snd (decode_stream decoder_init (map pcm_to_sample (read_samples stdin))).

(** ** A software C library

    [sin] and [atan2f] by argument reduction and truncated power series in
    binary64 arithmetic, accurate to about fifteen decimal places on the
    arguments the programs use.  It serves to run the model on concrete
    inputs; the theorems on the steps of the programs do not depend
    on it. *)

Module SoftLibm.

Definition two_pi : spec_float := Eval vm_compute in F64.mul (F64.of_Z 2) M_PI.
Definition half_pi : spec_float := Eval vm_compute in F64.div M_PI (F64.of_Z 2).

Fixpoint factorial (n : nat) : Z :=
  match n with
  | O => 1
  | S m => Z.of_nat n * factorial m
  end.

(** The coefficients [1, -1/3!, 1/5!, ..., -1/19!] of the sine series. *)
Definition sin_coefficients : list spec_float :=
  Eval vm_compute in
    map (fun k => F64.div (F64.of_Z (if Nat.even k then 1 else -1))
                          (F64.of_Z (factorial (2 * k + 1))))
        (seq 0 10).

(** [r - r^3/3! + r^5/5! - ...] up to [r^19], in Horner form. *)
Definition sin_series (r : spec_float) : spec_float :=
  let r2 := F64.mul r r in
  F64.mul r
    (fold_right (fun c acc => F64.add c (F64.mul r2 acc)) F64.zero
                sin_coefficients).

(** The argument is brought into [[-pi, pi]] by a multiple of [2 pi] and
    then into [[-pi/2, pi/2]] by [sin r = sin (pi - r)]. *)
Definition sin (x : spec_float) : spec_float :=
  match x with
  | S754_finite _ _ _ =>
      let n := float_trunc (float_round F64.prec F64.emax (F64.div x two_pi)) in
      let r := F64.sub x (F64.mul (F64.of_Z n) two_pi) in
      if F64.gtb r half_pi then sin_series (F64.sub M_PI r)
      else if F64.ltb r (SFopp half_pi)
           then sin_series (F64.sub (SFopp M_PI) r)
           else sin_series r
  | S754_zero _ => x
  | _ => S754_nan
  end.

(** [t - t^3/3 + t^5/5 - ...] up to [t^23], for small [t]. *)
Definition atan_series (t : spec_float) : spec_float :=
  let t2 := F64.mul t t in
  F64.mul t
    (fold_right
       (fun k acc =>
          F64.sub (F64.div F64.one (F64.of_Z (2 * k + 1))) (F64.mul t2 acc))
       F64.zero [0; 1; 2; 3; 4; 5; 6; 7; 8; 9; 10; 11]).

(** [atan t = 2 atan (t / (1 + sqrt (1 + t^2)))] *)
Definition atan_halve (t : spec_float) : spec_float :=
  F64.div t (F64.add F64.one (F64.sqrt (F64.add F64.one (F64.mul t t)))).

Definition atan_small (t : spec_float) : spec_float :=
  F64.mul (F64.of_Z 8) (atan_series (atan_halve (atan_halve (atan_halve t)))).

Definition atan (t : spec_float) : spec_float :=
  if F64.gtb t F64.one then
    F64.sub half_pi (atan_small (F64.div F64.one t))
  else if F64.ltb t (F64.of_Z (-1)) then
    F64.sub (SFopp half_pi) (atan_small (F64.div F64.one t))
  else atan_small t.

Definition atan2 (y x : spec_float) : spec_float :=
  if F64.gtb x F64.zero then atan (F64.div y x)
  else if F64.ltb x F64.zero then
    if F64.ltb y F64.zero then F64.sub (atan (F64.div y x)) M_PI
    else F64.add (atan (F64.div y x)) M_PI
  else if F64.gtb y F64.zero then half_pi
  else if F64.ltb y F64.zero then SFopp half_pi
  else y.

Definition atan2f (y x : spec_float) : spec_float :=
  F32.of_double (atan2 (F64.of_float y) (F64.of_float x)).

Definition libm : Libm := {| libm_sin := sin; libm_atan2f := atan2f |}.

End SoftLibm.

(** ** Concrete windows and inputs *)

(** A completed window in which only carrier [f] has a non-zero
    accumulator, [(amplitude, 0)]. *)
Definition single_carrier (f : nat) (amplitude : spec_float) : fourier :=
  mk_fourier 0 BIT_COUNT SAMPLE_COUNT_MIN
    (array_set (repeat (F32.zero, F32.zero) (Z.to_nat BIT_COUNT)) f
               (amplitude, F32.zero)).

(** The binary32 neighbours of 0.5: [0.5 + 2^-24] and [0.5 - 2^-25]. *)
Definition just_above_half : spec_float := S754_finite false 8388609 (-24).
Definition just_below_half : spec_float := S754_finite false 16777215 (-25).

(** A decoder one sample before the end of a 19-sample window, with the
    pilot accumulator [pilot] and the other carriers silent, locked on a
    signal between 0 and 1024. *)
Definition window_end (st : decoder_state) (p p2 p3 : Z)
    (pilot : spec_float * spec_float) : decoder :=
  mk_decoder st true p p2 p3 512 1024 0
    (mk_fourier 18 BIT_COUNT SAMPLE_COUNT_MIN
       (pilot :: repeat (F32.zero, F32.zero) 8)).

(** The last sample of a silent window in DecodeData, with the history the
    decoder holds at the end of a frame. *)
Definition silent_window_end : decoder :=
  window_end DECODER_DECODE_DATA 0 1 (-2) (F32.zero, F32.zero).

(** The last sample of a window whose pilot accumulator is (1.0, 0.5),
    after two measurements of three samples each. *)
Definition drifting_window_end : decoder :=
  window_end DECODER_DECODE_DATA 0 3 3
             (F32.one, S754_finite false 8388608 (-24)).

(** The decoder after a run of samples, results dropped. *)
Definition decoder_feed {L : Libm} (d : decoder) (samples : list Z)
  : decoder :=
  fold_left (fun d sample => fst (decoder_decode d sample)) samples d.

(** A baseline sample, a peak, a trough and a sample above the midpoint
    take the decoder from Init into Calibrate. *)
Definition short_wave : list Z := [512; 700; 300; 600].

(** A wave that makes Calibrate shrink its window: the acquisition of
    [short_wave], then windows of 19, 10, 5, 3 and 2 samples whose pilot
    phase is measured as positive three times each. *)
Definition shrinking_wave : list Z :=
  [512; 700; 300; 600;
   559; 493; 429; 372; 329; 305; 301; 320; 357; 411; 474; 539; 601; 652;
   686; 700; 692; 664; 618;
   493; 429; 372; 329; 305; 301; 320; 357; 411; 474; 539; 601; 652; 686;
   700; 692; 664; 618;
   493; 429; 372; 329; 305; 301; 320; 357; 411; 474; 539; 601; 652; 686;
   700; 692; 664; 618;
   415; 325; 302; 354; 463; 585; 675; 698; 646;
   415; 325; 302; 354; 463; 585; 675; 698; 646;
   415; 325; 302; 354; 463; 585; 675; 698; 646;
   500; 310; 382; 618; 500; 310; 382; 618; 500; 310; 382; 618;
   300; 400; 300; 500; 300; 600; 500; 400].

(** The decoder at the start of the first window of the terminator of the
    frame of the byte 0x48: DecodeData, a 20-sample window, and the
    measurement -2 of the data symbol in the middle slot of the
    history. *)
Definition last_window_start : decoder :=
  mk_decoder DECODER_DECODE_DATA true 0 (-2) 0 512 1024 0
    (mk_fourier 0 BIT_COUNT (SAMPLE_COUNT_MIN + 1)
       (repeat (F32.zero, F32.zero) (Z.to_nat BIT_COUNT))).

(** ** The acquisition invariant *)

(** What holds in every state the decoder can reach: the window length is
    zero while the polarity is being detected, and from the first half-wave
    on the magnitude range is wider than the timing threshold. *)
Definition acquisition_inv (d : decoder) : Prop :=
  (state d = DECODER_DETECT_POLARITY -> sample_count (d_fourier d) = 0)
  /\ (2 <= state_index (state d) ->
      TIMING_SIGNAL_THRESHOLD < signal_max d - signal_min d).

(** ** The rest of the two programs *)

(** [write_wav_header]: the 44 bytes of the string literal, without its
    terminating NUL. *)
Definition wav_header : list Z :=
  [82; 73; 70; 70; 36; 0; 0; 128; 87; 65; 86; 69;
   102; 109; 116; 32; 16; 0; 0; 0; 1; 0; 1; 0;
   68; 172; 0; 0; 0; 238; 2; 0; 4; 0; 32; 0;
   100; 97; 116; 97; 0; 0; 0; 128].

(** Everything [main] of [d2s.c] writes. *)
Definition d2s_main {L : Libm} (stdin : list Z) : list Z :=
  wav_header ++ encode stdin.

(** The samples [main] of [s2d.c] makes of the header: it does not skip
    it. *)
Definition header_samples : list Z :=
  map pcm_to_sample (read_samples wav_header).

(** A decoder at the start of a 19-sample window in Calibrate, locked with
    inverted polarity on a signal between 0 and 901. *)
Definition header_lock : decoder :=
  mk_decoder DECODER_DETECT_CALIBRATE false 0 0 0 793 901 0
    (mk_fourier 0 BIT_COUNT SAMPLE_COUNT_MIN
       (repeat (F32.zero, F32.zero) (Z.to_nat BIT_COUNT))).

(** The results of consecutive calls of [decoder_decode_byte]. *)
Fixpoint decode_byte_run {L : Libm} (d : decoder) (samples : list spec_float)
  : decoder * list Z :=
  match samples with
  | [] => (d, [])
  | x :: rest =>
      let '(d', r) := decoder_decode_byte d x in
      let '(d'', rs) := decode_byte_run d' rest in
      (d'', r :: rs)
  end.

(** The arrows of the state machine, read off the assignments to
    [decoder->state] in [decoder_decode]. *)
Inductive transition : decoder_state -> decoder_state -> Prop :=
| tr_init : transition DECODER_INIT DECODER_DETECT_POLARITY
| tr_polarity_stay :
    transition DECODER_DETECT_POLARITY DECODER_DETECT_POLARITY
| tr_polarity_found :
    transition DECODER_DETECT_POLARITY DECODER_DETECT_WAVE_FIRST_HALF
| tr_first_stay :
    transition DECODER_DETECT_WAVE_FIRST_HALF DECODER_DETECT_WAVE_FIRST_HALF
| tr_first_done :
    transition DECODER_DETECT_WAVE_FIRST_HALF DECODER_DETECT_WAVE_SECOND_HALF
| tr_second_stay :
    transition DECODER_DETECT_WAVE_SECOND_HALF DECODER_DETECT_WAVE_SECOND_HALF
| tr_second_done :
    transition DECODER_DETECT_WAVE_SECOND_HALF DECODER_DETECT_CALIBRATE
| tr_calibrate_stay :
    transition DECODER_DETECT_CALIBRATE DECODER_DETECT_CALIBRATE
| tr_calibrate_retry : transition DECODER_DETECT_CALIBRATE DECODER_INIT
| tr_calibrate_start :
    transition DECODER_DETECT_CALIBRATE DECODER_DECODE_DATA
| tr_data_stay : transition DECODER_DECODE_DATA DECODER_DECODE_DATA
| tr_data_end : transition DECODER_DECODE_DATA DECODER_EOF
| tr_eof : transition DECODER_EOF DECODER_EOF.

(** The analyzer as [main] sets it up and every call keeps it: nine
    carriers, nine accumulator pairs, index and window length within
    [short]. *)
Definition fourier_wf (fo : fourier) : Prop :=
  frequency_count fo = BIT_COUNT
  /\ length (sincos_components fo) = Z.to_nat BIT_COUNT
  /\ 0 <= fourier_i fo < 32767
  /\ -32768 <= sample_count fo < 32768.

(** The analyzer at the start of a window. *)
Definition fourier_clean (fo : fourier) : Prop :=
  fourier_i fo = 0
  /\ sincos_components fo
     = repeat (F32.zero, F32.zero) (Z.to_nat BIT_COUNT).

Definition is_int16 (z : Z) : Prop := -32768 <= z < 32768.

(** Every field within the range of its C type, the magnitude range not
    empty. *)
Definition decoder_ranges (d : decoder) : Prop :=
  fourier_wf (d_fourier d)
  /\ is_uint16 (baseline d) /\ is_uint16 (signal_max d)
  /\ is_uint16 (signal_min d) /\ signal_min d <= signal_max d
  /\ is_int16 (phase d) /\ is_int16 (phase2 d) /\ is_int16 (phase3 d).

(** In addition, the analyzer is at the start of a window as long as the
    acquisition has not reached Calibrate. *)
Definition decoder_wf (d : decoder) : Prop :=
  decoder_ranges d
  /\ (state_index (state d) < 4 -> fourier_clean (d_fourier d)).

(** * Properties *)

(** ** Machine integers and bits *)

Lemma wrap_signed_small (z : Z) :
  -32768 <= z < 32768 -> wrap_signed 16 z = z.
Proof.
  intros Hz. unfold wrap_signed.
  change (2 ^ (16 - 1)) with 32768. change (2 ^ 16) with 65536.
  rewrite Z.mod_small; lia.
Qed.

Lemma wrap_unsigned_range (z : Z) : is_uint16 (uint16_of z).
Proof.
  unfold is_uint16, uint16_of, wrap_unsigned. change (2 ^ 16) with 65536.
  apply Z.mod_pos_bound. lia.
Qed.

(** [ch & (1<<b)] is non-zero exactly when bit [b] of [ch] is set. *)
Lemma land_bit_eqb (ch b : Z) :
  0 <= b -> (Z.land ch (Z.shiftl 1 b) =? 0) = negb (Z.testbit ch b).
Proof.
  intros Hb. rewrite Z.shiftl_1_l.
  destruct (Z.testbit ch b) eqn:Hbit; simpl.
  - apply Z.eqb_neq. intros Hz.
    assert (Ht : Z.testbit (Z.land ch (2 ^ b)) b = true).
    { rewrite Z.land_spec, Hbit, Z.pow2_bits_true; auto. }
    rewrite Hz, Z.bits_0 in Ht. discriminate.
  - apply Z.eqb_eq. apply Z.bits_inj'. intros n Hn.
    rewrite Z.land_spec, Z.bits_0, Z.pow2_bits_eqb by lia.
    destruct (Z.eqb_spec b n) as [->|]; [rewrite Hbit|]; auto using andb_false_r.
Qed.

Lemma bit_selected_testbit (ch : Z) (b : nat) :
  bit_selected ch b = Z.testbit ch (Z.of_nat b).
Proof.
  unfold bit_selected. rewrite land_bit_eqb by lia. apply negb_involutive.
Qed.

(** ** The tone protocol *)

Section ToneProtocol.
Context {L : Libm}.

Lemma add_tone_fold (ch t : Z) (bits : list nat) (s : spec_float) :
  fold_left (add_tone ch t) bits s =
  fold_left (fun s k => F64.add s (libm_sin (wave_arg k t)))
            (map tone_cycles (filter (bit_selected ch) bits)) s.
Proof.
  revert s. induction bits as [|b bits IH]; intros s; simpl; [reflexivity|].
  unfold add_tone at 2. destruct (bit_selected ch b); simpl; apply IH.
Qed.

(** The sample [print_byte] computes is the superposition of the tones of
    [symbol_tones], scaled by the amplitude. *)
Lemma symbol_sample_superposition (g : spec_float) (ch t : Z) :
  symbol_sample g ch t = F64.mul (superposition (symbol_tones ch) t) g.
Proof.
  unfold symbol_sample, superposition, symbol_tones.
  now rewrite add_tone_fold.
Qed.

End ToneProtocol.

Lemma in_symbol_tones (ch k : Z) :
  In k (symbol_tones ch) <->
  exists b : nat, (b < 9)%nat /\ Z.testbit ch (Z.of_nat b) = true
                  /\ k = BIT_COUNT - Z.of_nat b.
Proof.
  unfold symbol_tones. rewrite in_map_iff. split.
  - intros (b & Hk & Hb). apply filter_In in Hb as [Hin Hsel].
    apply in_seq in Hin. rewrite bit_selected_testbit in Hsel.
    exists b. repeat split; auto.
    change (Z.to_nat BIT_COUNT) with 9%nat in Hin. lia.
  - intros (b & Hlt & Hbit & ->). exists b. split; [reflexivity|].
    apply filter_In. split.
    + apply in_seq. change (Z.to_nat BIT_COUNT) with 9%nat. lia.
    + now rewrite bit_selected_testbit.
Qed.

(** C2, as amended: the symbol [print_byte] synthesizes is the
    superposition of the tones of [symbol_tones], and for every symbol value
    and every carrier index [f] in 0..8 the tone with [f+1] cycles per
    window (the wave the analyzer correlates carrier [f] with) is among them
    if and only if bit [8-f] (the bit the demodulator sets for carrier [f])
    of the symbol value is set. *)
Theorem tone_mapping {L : Libm} (ch : Z) (f : nat) :
  (f < 9)%nat ->
  (forall g t,
      symbol_sample g ch t = F64.mul (superposition (symbol_tones ch) t) g)
  /\ carrier_cycles f = Z.of_nat f + 1
  /\ carrier_bit f = 8 - Z.of_nat f
  /\ (In (carrier_cycles f) (symbol_tones ch) <->
      Z.testbit ch (carrier_bit f) = true).
Proof.
  intros Hf. split; [intros; apply symbol_sample_superposition|].
  split; [reflexivity|]. split; [unfold carrier_bit, BIT_COUNT; lia|].
  rewrite in_symbol_tones. unfold carrier_cycles, carrier_bit, BIT_COUNT.
  split.
  - intros (b & Hb & Hbit & Hk).
    replace (9 - Z.of_nat f - 1) with (Z.of_nat b) by lia. exact Hbit.
  - intros Hbit. exists (8 - f)%nat. repeat split; try lia.
    replace (Z.of_nat (8 - f)) with (9 - Z.of_nat f - 1) by lia. exact Hbit.
Qed.

Lemma tone_mapping_witness :
  In (carrier_cycles 0) (symbol_tones 328) <->
  Z.testbit 328 (carrier_bit 0) = true.
Proof.
  apply (@tone_mapping SoftLibm.libm 328 0). lia.
Defined.

(** C2, as the specification words it, fails: in the pilot-only symbol
    (value 0x100) bit 8 is set, yet no tone of 9 cycles per window is
    synthesized; the one tone present has 1 cycle per window. *)
Lemma tone_mapping_as_stated_fails :
  ~ (forall (ch : Z) (f : nat), 0 <= ch < 512 -> (f < 9)%nat ->
       (In (9 - Z.of_nat f) (symbol_tones ch) <->
        Z.testbit ch (8 - Z.of_nat f) = true)).
Proof.
  intros H. specialize (H SYNC_SIGNAL 0%nat).
  destruct H as [_ H]; [unfold SYNC_SIGNAL; lia | lia |].
  specialize (H eq_refl). vm_compute in H.
  destruct H as [H|[]]. discriminate H.
Qed.

(** ** The encoder's sample writer *)

Lemma F64_of_Z_1 : F64.of_Z 1 = S754_finite false 4503599627370496 (-52).
Proof. vm_compute. reflexivity. Qed.

Lemma F64_of_Z_m1 : F64.of_Z (-1) = S754_finite true 4503599627370496 (-52).
Proof. vm_compute. reflexivity. Qed.

Lemma below_minus_one_not_above_one (x : spec_float) :
  F64.ltb x (F64.of_Z (-1)) = true -> F64.gtb x (F64.of_Z 1) = false.
Proof.
  rewrite F64_of_Z_1, F64_of_Z_m1. unfold F64.ltb, F64.gtb, SFltb.
  destruct x as [s|s| |s m e]; try destruct s;
    cbv beta iota delta [SFcompare]; congruence.
Qed.

Example write_sample_one :
  write_sample (F64.of_Z 1) = [255; 255; 255; 127].
Proof. vm_compute. reflexivity. Qed.

Example write_sample_minus_one :
  write_sample (F64.of_Z (-1)) = [1; 0; 0; 128].
Proof. vm_compute. reflexivity. Qed.

(** C9: an amplitude above 1 is written as the same four bytes as the
    amplitude 1.0, and an amplitude below -1 as the same four bytes as
    -1.0. *)
Theorem write_sample_clamps (x : spec_float) :
  (F64.gtb x (F64.of_Z 1) = true ->
   write_sample x = write_sample (F64.of_Z 1))
  /\ (F64.ltb x (F64.of_Z (-1)) = true ->
      write_sample x = write_sample (F64.of_Z (-1))).
Proof.
  split; intros H; unfold write_sample at 1.
  - rewrite H. reflexivity.
  - rewrite (below_minus_one_not_above_one x H), H. reflexivity.
Qed.

(** 1.5 and -2.0, the examples of the specification. *)
Lemma write_sample_clamps_witness :
  write_sample (S754_finite false 6755399441055744 (-52))
  = write_sample (F64.of_Z 1)
  /\ write_sample (S754_finite true 4503599627370496 (-51))
     = write_sample (F64.of_Z (-1)).
Proof.
  split.
  - apply (proj1 (write_sample_clamps _)). vm_compute. reflexivity.
  - apply (proj2 (write_sample_clamps _)). vm_compute. reflexivity.
Defined.

(** ** The state machine: the terminal state *)

Section StateMachine.
Context {L : Libm}.

Lemma decoder_decode_byte_complete (d : decoder) (sample : spec_float)
    (fo : fourier) :
  fourier_add_sample (d_fourier d) sample = (fo, true) ->
  let byte := demod_bits (Z.to_nat (frequency_count fo))
                         (fourier_to_frequency fo) in
  decoder_decode_byte d sample =
  (set_fourier
     (set_phase d
        (if Z.land byte 256 =? 0 then 0
         else let '(s, co) := nth 0 (sincos_components fo)
                                  (F32.zero, F32.zero) in
              phase_to_samples (sincos_to_phase s co) (sample_count fo)))
     (fourier_reset fo),
   if byte =? 0 then DECODER_RET_EOF else Z.land byte 255).
Proof.
  intros H. unfold decoder_decode_byte. rewrite H. reflexivity.
Qed.

Lemma decoder_decode_byte_incomplete (d : decoder) (sample : spec_float)
    (fo : fourier) :
  fourier_add_sample (d_fourier d) sample = (fo, false) ->
  decoder_decode_byte d sample = (set_fourier d fo, DECODER_RET_NO_DATA).
Proof.
  intros H. unfold decoder_decode_byte. rewrite H. reflexivity.
Qed.

Lemma decoder_eof_step (d : decoder) (sample : Z) :
  state d = DECODER_EOF -> decoder_decode d sample = (d, DECODER_RET_EOF).
Proof.
  intros H. unfold decoder_decode. now rewrite H.
Qed.

(** C8: from the Eof state every call of [decoder_decode] returns
    end-of-stream and gives back the decoder unchanged, whatever the
    samples and however many calls follow. *)
Theorem eof_is_terminal (d : decoder) (samples : list Z) :
  state d = DECODER_EOF ->
  (forall sample, decoder_decode d sample = (d, DECODER_RET_EOF))
  /\ decoder_run d samples = (d, repeat DECODER_RET_EOF (length samples)).
Proof.
  intros H. split; [intros; now apply decoder_eof_step|].
  induction samples as [|x rest IH]; simpl; [reflexivity|].
  rewrite (decoder_eof_step d x H), IH. reflexivity.
Qed.

End StateMachine.

(** ** The byte demodulator *)

Lemma power_threshold_quarter : power_threshold = F64.quarter.
Proof. vm_compute. reflexivity. Qed.

Lemma testbit_lor_bit (acc b k : Z) :
  0 <= k ->
  Z.testbit (Z.lor acc (Z.shiftl 1 b)) k = Z.testbit acc k || (b =? k).
Proof.
  intros Hk. rewrite Z.lor_spec, Z.shiftl_1_l. f_equal.
  destruct (Z.le_gt_cases 0 b) as [Hb|Hb].
  - now apply Z.pow2_bits_eqb.
  - rewrite Z.pow_neg_r, Z.bits_0 by lia. symmetry. apply Z.eqb_neq. lia.
Qed.

(** The threshold loop sets bit [k] exactly when some carrier it visits
    decides bit [k] and has a power above the threshold. *)
Lemma demod_fold_testbit (frequency : list spec_float) (k : Z)
    (carriers : list nat) (acc : Z) :
  0 <= k ->
  Z.testbit (fold_left (demod_bit frequency) carriers acc) k =
  Z.testbit acc k
  || existsb (fun f =>
                (carrier_bit f =? k)
                && F64.gtb (F64.of_float (nth f frequency F32.zero))
                           power_threshold) carriers.
Proof.
  intros Hk. revert acc.
  induction carriers as [|f carriers IH]; intros acc; simpl.
  - now rewrite orb_false_r.
  - rewrite IH. unfold demod_bit at 1.
    destruct (F64.gtb _ power_threshold).
    + rewrite testbit_lor_bit by assumption.
      rewrite andb_true_r. now rewrite orb_assoc.
    + now rewrite andb_false_r.
Qed.

Lemma demod_bits_testbit (frequency : list spec_float) (n f : nat) :
  (f < n)%nat ->
  Z.testbit (demod_bits n frequency) (carrier_bit f) =
  (0 <=? carrier_bit f)
  && F64.gtb (F64.of_float (nth f frequency F32.zero)) power_threshold.
Proof.
  intros Hf. unfold demod_bits.
  destruct (Z.leb_spec 0 (carrier_bit f)) as [Hk|Hk].
  - rewrite demod_fold_testbit by assumption. rewrite Z.bits_0. simpl.
    destruct (F64.gtb (F64.of_float (nth f frequency F32.zero))
                      power_threshold) eqn:Hgt.
    + apply existsb_exists. exists f. split; [apply in_seq; lia|].
      now rewrite Z.eqb_refl, Hgt.
    + apply not_true_is_false. intros Hex.
      apply existsb_exists in Hex as (f' & _ & Hf').
      apply andb_true_iff in Hf' as [Heq Hgt'].
      apply Z.eqb_eq in Heq. unfold carrier_bit in Heq.
      assert (f' = f) by lia. subst f'. congruence.
  - simpl. now apply Z.testbit_neg_r.
Qed.

Lemma fourier_to_frequency_nth (fo : fourier) (f : nat) :
  (f < Z.to_nat (frequency_count fo))%nat ->
  nth f (fourier_to_frequency fo) F32.zero =
  F32.add (quad (fst (nth f (sincos_components fo) (F32.zero, F32.zero))))
          (quad (snd (nth f (sincos_components fo) (F32.zero, F32.zero)))).
Proof.
  intros Hf. unfold fourier_to_frequency.
  set (g := fun f0 : nat => _).
  rewrite (nth_indep _ F32.zero (g 0%nat))
    by (rewrite length_map, length_seq; exact Hf).
  rewrite map_nth, seq_nth by assumption. subst g. cbv beta.
  change (0 + f)%nat with f.
  now destruct (nth f (sincos_components fo) (F32.zero, F32.zero)).
Qed.

(** The squares of the two neighbours of 0.5, [0.25 + 2^-24] and
    [0.25 - 2^-25], lie on either side of the threshold, and 0.5 itself
    gives exactly 0.25, which is not above it. *)
Example power_just_above :
  quad just_above_half = S754_finite false 8388610 (-25)
  /\ F64.gtb (F64.of_float (quad just_above_half)) F64.quarter = true.
Proof. vm_compute. split; reflexivity. Qed.

Example power_just_below :
  quad just_below_half = S754_finite false 16777214 (-26)
  /\ F64.gtb (F64.of_float (quad just_below_half)) F64.quarter = false.
Proof. vm_compute. split; reflexivity. Qed.

Example power_at_half :
  F64.gtb (F64.of_float (quad (S754_finite false 8388608 (-24)))) F64.quarter
  = false.
Proof. vm_compute. reflexivity. Qed.

(** C3: at the end of a window, for every carrier [f] in 0..8, bit [8-f] of
    the demodulated 9-bit value is set if and only if the carrier's power,
    the sum of the squares of its sine and cosine accumulators, is above
    0.25; a window whose only carrier has a power slightly above 0.25
    demodulates to that carrier's bit alone, and one slightly below to 0. *)
Theorem demodulator_threshold (fo : fourier) (f : nat) :
  frequency_count fo = BIT_COUNT ->
  (f < 9)%nat ->
  let byte := demod_bits (Z.to_nat (frequency_count fo))
                         (fourier_to_frequency fo) in
  let sc := nth f (sincos_components fo) (F32.zero, F32.zero) in
  (Z.testbit byte (8 - Z.of_nat f) = true <->
   F64.gtb (F64.of_float (F32.add (quad (fst sc)) (quad (snd sc))))
           F64.quarter = true)
  /\ demod_bits 9 (fourier_to_frequency (single_carrier f just_above_half))
     = Z.shiftl 1 (8 - Z.of_nat f)
  /\ demod_bits 9 (fourier_to_frequency (single_carrier f just_below_half))
     = 0.
Proof.
  intros Hcount Hf byte sc. split.
  - subst byte sc. rewrite Hcount. change (Z.to_nat BIT_COUNT) with 9%nat.
    replace (8 - Z.of_nat f) with (carrier_bit f)
      by (unfold carrier_bit, BIT_COUNT; lia).
    rewrite demod_bits_testbit by assumption.
    rewrite fourier_to_frequency_nth
      by (rewrite Hcount; change (Z.to_nat BIT_COUNT) with 9%nat; lia).
    rewrite power_threshold_quarter.
    replace (0 <=? carrier_bit f) with true
      by (symmetry; apply Z.leb_le; unfold carrier_bit, BIT_COUNT; lia).
    reflexivity.
  - do 9 (destruct f as [|f]; [vm_compute; split; reflexivity|]). lia.
Qed.

Lemma demodulator_threshold_witness :
  Z.testbit (demod_bits 9 (fourier_to_frequency
                             (single_carrier 3 just_above_half))) (8 - 3)
  = true.
Proof.
  apply (proj1 (demodulator_threshold (single_carrier 3 just_above_half) 3
                  eq_refl ltac:(lia))).
  vm_compute. reflexivity.
Defined.

(** ** The pilot phase *)

Lemma fourier_add_sample_sample_count {L : Libm} (fo fo' : fourier)
    (sample : spec_float) (complete : bool) :
  fourier_add_sample fo sample = (fo', complete) ->
  sample_count fo' = sample_count fo
  /\ frequency_count fo' = frequency_count fo
  /\ complete = (sample_count fo <=? short_of (fourier_i fo + 1)).
Proof.
  unfold fourier_add_sample. intros H. inversion H. now subst.
Qed.

(** C4: when a sample completes a window, the phase offset stored in the
    decoder is, if bit 8 of the demodulated value is set, the angle
    [atan2f(cos, sin)] of the pilot accumulator divided by [2*M_PI],
    multiplied by the window length and rounded to the nearest [int16_t]
    sample count; it is 0 if bit 8 is clear. *)
Theorem pilot_phase_offset {L : Libm} (d : decoder) (sample : spec_float)
    (fo : fourier) :
  fourier_add_sample (d_fourier d) sample = (fo, true) ->
  let byte := demod_bits (Z.to_nat (frequency_count fo))
                         (fourier_to_frequency fo) in
  let pilot := nth 0 (sincos_components fo) (F32.zero, F32.zero) in
  let fraction :=
    F32.of_double
      (F64.div (F64.of_float (libm_atan2f (snd pilot) (fst pilot)))
               (F64.mul (F64.of_Z 2) M_PI)) in
  phase (fst (decoder_decode_byte d sample)) =
  if Z.testbit byte 8
  then int16_of
         (float_trunc
            (F32.round
               (F32.mul fraction (F32.of_Z (sample_count (d_fourier d))))))
  else 0.
Proof.
  intros Hadd byte pilot fraction.
  rewrite (decoder_decode_byte_complete _ _ _ Hadd). cbv zeta.
  destruct (fourier_add_sample_sample_count _ _ _ _ Hadd) as (Hn & _ & _).
  fold byte. change 256 with (Z.shiftl 1 8).
  rewrite land_bit_eqb by lia.
  unfold set_fourier, set_phase, fst, phase.
  destruct (Z.testbit byte 8); cbn [negb]; [|reflexivity].
  subst fraction pilot. rewrite <- Hn.
  destruct (nth 0 (sincos_components fo) (F32.zero, F32.zero)) as [s co].
  reflexivity.
Qed.

(** With a pilot accumulator of (1.0, 0.5) the measured offset is one
    sample: [atan2f(0.5, 1.0) / (2*M_PI) * 19] is about 1.4. *)
Lemma pilot_phase_offset_witness :
  phase (fst (@decoder_decode_byte SoftLibm.libm
                (window_end DECODER_DECODE_DATA 0 0 0
                   (F32.one, S754_finite false 8388608 (-24)))
                F32.zero)) = 1.
Proof.
  rewrite (@pilot_phase_offset SoftLibm.libm _ _
             (fst (@fourier_add_sample SoftLibm.libm
                     (d_fourier (window_end DECODER_DECODE_DATA 0 0 0
                                   (F32.one, S754_finite false 8388608 (-24))))
                     F32.zero))).
  - vm_compute. reflexivity.
  - vm_compute. reflexivity.
Defined.

(** ** What a demodulation step leaves alone *)

Section Frames.
Context {L : Libm}.

(** [decoder_decode_byte] writes the phase and the analyzer only, and in
    the analyzer neither the window length nor the carrier count. *)
Lemma decoder_decode_byte_frame (d : decoder) (sample : spec_float) :
  exists ph fo,
    fst (decoder_decode_byte d sample) =
    mk_decoder (state d) (polarity d) ph (phase2 d) (phase3 d)
               (baseline d) (signal_max d) (signal_min d) fo
    /\ sample_count fo = sample_count (d_fourier d)
    /\ frequency_count fo = frequency_count (d_fourier d).
Proof.
  unfold decoder_decode_byte.
  destruct (fourier_add_sample (d_fourier d) sample) as [fo complete] eqn:Hadd.
  destruct (fourier_add_sample_sample_count _ _ _ _ Hadd) as (Hn & Hc & _).
  destruct complete.
  - eexists. exists (fourier_reset fo). split; [reflexivity|]. now split.
  - exists (phase d), fo. split; [reflexivity|]. now split.
Qed.

Lemma drift_correct_frame (d : decoder) :
  state (drift_correct d) = state d
  /\ phase (drift_correct d) = phase d
  /\ signal_max (drift_correct d) = signal_max d
  /\ signal_min (drift_correct d) = signal_min d
  /\ baseline (drift_correct d) = baseline d.
Proof.
  unfold drift_correct. destruct (drift_consistent d); repeat split.
Qed.

(** The tail of a decoding step keeps the magnitude range, and the window
    length and the history are those the drift corrector left. *)
Lemma after_byte_frame (calibrating : bool) (d : decoder) (byte : Z)
    (fsample : spec_float) :
  let d' := after_byte calibrating d byte fsample in
  signal_max d' = signal_max d
  /\ signal_min d' = signal_min d
  /\ baseline d' = baseline d
  /\ phase2 d' = phase2 (drift_correct d)
  /\ phase3 d' = phase3 (drift_correct d)
  /\ sample_count (d_fourier d') = sample_count (d_fourier (drift_correct d))
  /\ (state d' = state d
      \/ calibrating = true /\ byte = 62 /\ state d' = DECODER_DECODE_DATA).
Proof.
  unfold after_byte.
  destruct (drift_correct_frame d) as (Hst & _ & Hmax & Hmin & Hbase).
  set (d1 := drift_correct d) in *.
  set (d2 := if calibrating && (byte =? 62)
             then set_state d1 DECODER_DECODE_DATA else d1).
  assert (H2 : signal_max d2 = signal_max d /\ signal_min d2 = signal_min d
               /\ baseline d2 = baseline d
               /\ phase2 d2 = phase2 d1 /\ phase3 d2 = phase3 d1
               /\ sample_count (d_fourier d2) = sample_count (d_fourier d1)
               /\ (state d2 = state d
                   \/ calibrating = true /\ byte = 62
                      /\ state d2 = DECODER_DECODE_DATA)).
  { subst d2. destruct calibrating; cbn [andb].
    - destruct (Z.eqb_spec byte 62); repeat split; auto.
    - repeat split; auto. }
  destruct H2 as (Hmax2 & Hmin2 & Hbase2 & Hp2 & Hp3 & Hn2 & Hst2).
  destruct (0 <? phase d2); [|repeat split; assumption].
  destruct (decoder_decode_byte_frame d2 fsample) as (ph & fo & Heq & Hn & _).
  rewrite Heq. cbn [signal_max signal_min baseline phase2 phase3 d_fourier state].
  rewrite Hn. repeat split; assumption.
Qed.

End Frames.

(** ** The drift corrector and the false-lock retry *)

Lemma drift_consistent_spec (d : decoder) :
  drift_consistent d = true <->
  (0 < phase d /\ 0 < phase2 d /\ 0 < phase3 d)
  \/ (phase d < 0 /\ phase2 d < 0 /\ phase3 d < 0).
Proof.
  unfold drift_consistent.
  destruct (Z.eqb_spec (phase d) 0), (Z.eqb_spec (phase2 d) 0),
    (Z.eqb_spec (phase3 d) 0), (Z.ltb_spec (phase d) 0),
    (Z.ltb_spec (phase2 d) 0), (Z.ltb_spec (phase3 d) 0);
    cbn; split; intros Hc; try discriminate; try reflexivity; lia.
Qed.

Lemma drift_correct_consistent (d : decoder) :
  drift_consistent d = true ->
  sample_count (d_fourier (drift_correct d)) =
    short_of (sample_count (d_fourier d)
              - Z.quot (phase d + phase2 d + phase3 d) 3)
  /\ phase2 (drift_correct d) = 0
  /\ phase3 (drift_correct d) = phase3 d.
Proof.
  intros H. unfold drift_correct. rewrite H. repeat split.
Qed.

Lemma drift_correct_shift (d : decoder) :
  drift_consistent d = false ->
  sample_count (d_fourier (drift_correct d)) = sample_count (d_fourier d)
  /\ phase2 (drift_correct d) = phase d
  /\ phase3 (drift_correct d) = phase2 d.
Proof.
  intros H. unfold drift_correct. rewrite H. repeat split.
Qed.

Section Drift.
Context {L : Libm}.

(** A decoding step that demodulates a byte ends in [after_byte]. *)
Lemma decoding_step_after_byte (d : decoder) (sample : Z) (d1 : decoder)
    (byte : Z) :
  state d = DECODER_DETECT_CALIBRATE \/ state d = DECODER_DECODE_DATA ->
  0 <= phase d ->
  decoder_decode_byte d (normalize d sample) = (d1, byte) ->
  0 <= byte ->
  exists calibrating,
    fst (decoder_decode d sample) =
    after_byte calibrating d1 byte (normalize d sample).
Proof.
  intros Hst Hph Hdec Hbyte. unfold decoder_decode.
  assert (Hneg : (phase d <? 0) = false) by (apply Z.ltb_ge; lia).
  assert (Heof : (byte =? DECODER_RET_EOF) = false)
    by (apply Z.eqb_neq; unfold DECODER_RET_EOF; lia).
  assert (Hpos : (0 <=? byte) = true) by (apply Z.leb_le; lia).
  destruct Hst as [Hst|Hst]; rewrite Hst.
  - exists true. unfold detect_calibrate.
    rewrite Hneg, Hdec, Heof, Hpos. reflexivity.
  - exists false. unfold decode_data.
    rewrite Hneg, Hdec, Heof, Hpos. reflexivity.
Qed.

(** The extra call of [decoder_decode_byte] at the end of a decoding step
    runs on a decoder that holds the phase just measured and the window
    length and history the drift statement left; the call changes none of
    the three, also when it completes a window. *)
Lemma after_byte_extra (calibrating : bool) (d : decoder) (byte : Z)
    (fsample : spec_float) :
  0 < phase d ->
  exists d2 r,
    decoder_decode_byte d2 fsample = (after_byte calibrating d byte fsample, r)
    /\ d2 = (if calibrating && (byte =? 62)
             then set_state (drift_correct d) DECODER_DECODE_DATA
             else drift_correct d)
    /\ phase d2 = phase d
    /\ sample_count (d_fourier d2)
       = sample_count (d_fourier (drift_correct d))
    /\ phase2 d2 = phase2 (drift_correct d)
    /\ phase3 d2 = phase3 (drift_correct d).
Proof.
  intros Hpos. unfold after_byte.
  destruct (drift_correct_frame d) as (_ & Hp & _).
  set (d2 := if calibrating && (byte =? 62)
             then set_state (drift_correct d) DECODER_DECODE_DATA
             else drift_correct d).
  assert (H2 : phase d2 = phase d
               /\ sample_count (d_fourier d2)
                  = sample_count (d_fourier (drift_correct d))
               /\ phase2 d2 = phase2 (drift_correct d)
               /\ phase3 d2 = phase3 (drift_correct d)).
  { subst d2. destruct (calibrating && (byte =? 62)); repeat split; auto. }
  destruct H2 as (Hp2 & Hn & Hh2 & Hh3).
  destruct (Z.ltb_spec 0 (phase d2)) as [_|Hle]; [|lia].
  exists d2, (snd (decoder_decode_byte d2 fsample)).
  split; [apply surjective_pairing|].
  repeat split; assumption.
Qed.

(** A decoding step whose demodulation yields no byte (the window is not
    complete, or its value is 0) runs no drift statement. *)
Lemma decoding_step_no_byte (d : decoder) (sample : Z) (d1 : decoder)
    (byte : Z) :
  state d = DECODER_DETECT_CALIBRATE \/ state d = DECODER_DECODE_DATA ->
  0 <= phase d ->
  decoder_decode_byte d (normalize d sample) = (d1, byte) ->
  byte < 0 ->
  let d' := fst (decoder_decode d sample) in
  sample_count (d_fourier d') = sample_count (d_fourier d)
  /\ phase2 d' = phase2 d /\ phase3 d' = phase3 d.
Proof.
  intros Hst Hph Hdec Hbyte. cbv zeta.
  destruct (decoder_decode_byte_frame d (normalize d sample))
    as (ph & fo & Hd1 & Hn & _).
  rewrite Hdec in Hd1. cbn [fst] in Hd1.
  assert (Hneg : (phase d <? 0) = false) by (apply Z.ltb_ge; lia).
  assert (Hpos : (0 <=? byte) = false) by (apply Z.leb_gt; exact Hbyte).
  unfold decoder_decode.
  destruct Hst as [Hst|Hst]; rewrite Hst.
  - unfold detect_calibrate. rewrite Hneg, Hdec, Hpos.
    destruct (byte =? DECODER_RET_EOF); cbn [fst]; subst d1;
      cbn [set_state d_fourier phase2 phase3]; rewrite Hn;
      repeat split.
  - unfold decode_data. rewrite Hneg, Hdec, Hpos.
    destruct (byte =? DECODER_RET_EOF); cbn [fst]; subst d1;
      cbn [set_state d_fourier phase2 phase3]; rewrite Hn;
      repeat split.
Qed.

(** C5, as amended: in the Calibrate and DecodeData states, after the
    demodulation a decoding step performs first, when it completes a
    window with a non-zero 9-bit value (a byte, not end-of-stream): if the
    phase just measured and the two history slots are all positive or all
    negative, the window length is decreased (as a 16-bit [short]) by
    their average truncated toward zero, the middle slot is set to zero
    and the oldest slot is kept; otherwise the window length is kept and
    the history is shifted: the oldest measurement is dropped and the one
    just measured becomes the most recent.  After a demodulation that
    yields end-of-stream, window length and history are left as they are.
    The extra demodulation made when the phase just measured is positive
    runs on the decoder the drift statement left and is followed by
    neither a correction nor a shift: whatever it yields, window length
    and history stay as the drift statement left them. *)
Theorem drift_correction (d : decoder) (sample : Z) (d1 : decoder)
    (byte : Z) :
  state d = DECODER_DETECT_CALIBRATE \/ state d = DECODER_DECODE_DATA ->
  0 <= phase d ->
  decoder_decode_byte d (normalize d sample) = (d1, byte) ->
  let d' := fst (decoder_decode d sample) in
  let p1 := phase d1 in
  let p2 := phase2 d in
  let p3 := phase3 d in
  let n := sample_count (d_fourier d) in
  (0 <= byte ->
   ((0 < p1 /\ 0 < p2 /\ 0 < p3) \/ (p1 < 0 /\ p2 < 0 /\ p3 < 0) ->
    sample_count (d_fourier d') = short_of (n - Z.quot (p1 + p2 + p3) 3)
    /\ phase2 d' = 0 /\ phase3 d' = p3)
   /\ (~ ((0 < p1 /\ 0 < p2 /\ 0 < p3) \/ (p1 < 0 /\ p2 < 0 /\ p3 < 0)) ->
       sample_count (d_fourier d') = n /\ phase2 d' = p1 /\ phase3 d' = p2))
  /\ (byte = DECODER_RET_EOF ->
      sample_count (d_fourier d') = n /\ phase2 d' = p2 /\ phase3 d' = p3)
  /\ (0 <= byte -> 0 < p1 ->
      exists d2 r,
        decoder_decode_byte d2 (normalize d sample) = (d', r)
        /\ (d2 = drift_correct d1
            \/ d2 = set_state (drift_correct d1) DECODER_DECODE_DATA)
        /\ sample_count (d_fourier d')
           = sample_count (d_fourier (drift_correct d1))
        /\ phase2 d' = phase2 (drift_correct d1)
        /\ phase3 d' = phase3 (drift_correct d1)).
Proof.
  intros Hst Hph Hdec d' p1 p2 p3 n.
  split; [|split].
  - intros Hbyte.
    destruct (decoding_step_after_byte d sample d1 byte Hst Hph Hdec Hbyte)
      as (calibrating & Hstep).
    destruct (decoder_decode_byte_frame d (normalize d sample))
      as (ph & fo & Hd1 & Hn & _).
    rewrite Hdec in Hd1. cbn [fst] in Hd1.
    assert (Hp2 : phase2 d1 = p2) by (rewrite Hd1; reflexivity).
    assert (Hp3 : phase3 d1 = p3) by (rewrite Hd1; reflexivity).
    assert (Hn1 : sample_count (d_fourier d1) = n)
      by (rewrite Hd1; cbn [d_fourier]; exact Hn).
    destruct (after_byte_frame calibrating d1 byte (normalize d sample))
      as (_ & _ & _ & Ha2 & Ha3 & Han & _).
    subst d'. rewrite Hstep, Ha2, Ha3, Han.
    pose proof (drift_consistent_spec d1) as Hspec.
    rewrite Hp2, Hp3 in Hspec. fold p1 in Hspec.
    split; intros Hcase.
    + apply Hspec in Hcase.
      destruct (drift_correct_consistent d1 Hcase) as (-> & -> & ->).
      rewrite Hp2, Hp3, Hn1. repeat split.
    + assert (Hfalse : drift_consistent d1 = false).
      { destruct (drift_consistent d1); [|reflexivity].
        exfalso. apply Hcase, Hspec. reflexivity. }
      destruct (drift_correct_shift d1 Hfalse) as (-> & -> & ->).
      rewrite Hp2, Hn1. repeat split.
  - intros Heof.
    apply (decoding_step_no_byte d sample d1 byte Hst Hph Hdec).
    subst byte. unfold DECODER_RET_EOF. lia.
  - intros Hbyte Hpos.
    destruct (decoding_step_after_byte d sample d1 byte Hst Hph Hdec Hbyte)
      as (calibrating & Hstep).
    destruct (after_byte_extra calibrating d1 byte (normalize d sample) Hpos)
      as (d2 & r & Hcall & Hd2 & _).
    destruct (after_byte_frame calibrating d1 byte (normalize d sample))
      as (_ & _ & _ & Ha2 & Ha3 & Han & _).
    exists d2, r. subst d'. rewrite Hstep.
    split; [exact Hcall|]. split.
    { rewrite Hd2. destruct (calibrating && (byte =? 62)); auto. }
    split; [exact Han|]. split; [exact Ha2|exact Ha3].
Qed.


End Drift.

(** ** The state machine and the drift corrector on concrete windows *)

Lemma eof_is_terminal_witness :
  @decoder_run SoftLibm.libm
    (window_end DECODER_EOF 0 1 (-2) (F32.zero, F32.zero)) [512; 0; 1024]
  = (window_end DECODER_EOF 0 1 (-2) (F32.zero, F32.zero),
     [DECODER_RET_EOF; DECODER_RET_EOF; DECODER_RET_EOF]).
Proof.
  apply (proj2 (@eof_is_terminal SoftLibm.libm
                  (window_end DECODER_EOF 0 1 (-2) (F32.zero, F32.zero))
                  [512; 0; 1024] eq_refl)).
Defined.

(** [shrinking_wave] leaves the decoder in Calibrate one sample before the
    end of a two-sample window, with three measurements of +1. *)
Example shrinking_wave_state :
  @decoder_feed SoftLibm.libm decoder_init shrinking_wave
  = mk_decoder DECODER_DETECT_CALIBRATE true 1 1 1 512 700 300
      (mk_fourier 1 BIT_COUNT 2
         (repeat (F32.zero, S754_finite false 13107200 (-22))
                 (Z.to_nat BIT_COUNT))).
Proof. vm_compute. reflexivity. Qed.


(** Measurements 1, 3 and 3: the window shrinks from 19 to 17 samples. *)
Lemma drift_correction_witness :
  sample_count
    (d_fourier (fst (@decoder_decode SoftLibm.libm drifting_window_end 0)))
  = 17
  /\ phase2 (fst (@decoder_decode SoftLibm.libm drifting_window_end 0)) = 0
  /\ phase3 (fst (@decoder_decode SoftLibm.libm drifting_window_end 0)) = 3.
Proof.
  pose proof
    (@drift_correction SoftLibm.libm drifting_window_end 0
       (fst (@decoder_decode_byte SoftLibm.libm drifting_window_end
               (normalize drifting_window_end 0)))
       (snd (@decoder_decode_byte SoftLibm.libm drifting_window_end
               (normalize drifting_window_end 0)))) as H.
  cbv zeta in H.
  assert (E : phase (fst (@decoder_decode_byte SoftLibm.libm
                            drifting_window_end
                            (normalize drifting_window_end 0))) = 1)
    by (vm_compute; reflexivity).
  rewrite E in H.
  destruct H as [H _].
  - right. reflexivity.
  - vm_compute. discriminate.
  - apply surjective_pairing.
  - destruct H as [H _].
    + vm_compute. discriminate.
    + apply H. left. repeat split; reflexivity.
Defined.

(** At the last sample of a silent window end-of-stream comes out, the
    decoder reaches Eof, and the history 1, -2 stays where it was. *)
Example silent_window_end_step :
  (fun r => (snd r, state (fst r), phase (fst r), phase2 (fst r),
             phase3 (fst r)))
    (@decoder_decode SoftLibm.libm silent_window_end 0)
  = (DECODER_RET_EOF, DECODER_EOF, 0, 1, -2).
Proof. vm_compute. reflexivity. Qed.

(** ** Invariants of the acquisition *)

Lemma decoder_update_magnitude_spec (d : decoder) (sample : Z) :
  decoder_update_magnitude d sample =
  mk_decoder (state d) (polarity d) (phase d) (phase2 d) (phase3 d)
             (baseline d) (Z.max (signal_max d) sample)
             (Z.min (signal_min d) sample) (d_fourier d).
Proof.
  destruct d as [st pol p p2 p3 base mx mn fo].
  unfold decoder_update_magnitude, set_signal_max, set_signal_min.
  cbn [state polarity phase phase2 phase3 baseline signal_max signal_min
       d_fourier].
  destruct (Z.ltb_spec mx sample) as [H1|H1];
    cbn [state polarity phase phase2 phase3 baseline signal_max signal_min
         d_fourier];
    destruct (Z.ltb_spec sample mn) as [H2|H2];
    cbn [state polarity phase phase2 phase3 baseline signal_max signal_min
         d_fourier];
    f_equal; lia.
Qed.

(** The first half-wave step widens the range, counts the sample, and
    stays or moves on to the second half. *)
Lemma detect_wave_first_half_spec (d : decoder) (sample : Z) :
  let d' := detect_wave_first_half d sample in
  signal_max d' = Z.max (signal_max d) sample
  /\ signal_min d' = Z.min (signal_min d) sample
  /\ (state d' = state d \/ state d' = DECODER_DETECT_WAVE_SECOND_HALF).
Proof.
  unfold detect_wave_first_half. rewrite decoder_update_magnitude_spec.
  cbn [signal_max signal_min state].
  destruct d as [st pol p p2 p3 base mx mn fo].
  unfold set_sample_count, set_fourier, set_state.
  cbn [state polarity phase phase2 phase3 baseline signal_max signal_min
       d_fourier].
  destruct (mx - mn <? (if pol then mx - sample else sample - mn));
    cbn [state signal_max signal_min]; auto.
Qed.

(** The second half-wave step widens the range too; it stays, or enters
    Calibrate with a window of at least [SAMPLE_COUNT_MIN] samples. *)
Lemma detect_wave_second_half_spec (d : decoder) (sample : Z) :
  let d' := detect_wave_second_half d sample in
  signal_max d' = Z.max (signal_max d) sample
  /\ signal_min d' = Z.min (signal_min d) sample
  /\ (state d' = state d
      \/ state d' = DECODER_DETECT_CALIBRATE
         /\ SAMPLE_COUNT_MIN <= sample_count (d_fourier d')).
Proof.
  unfold detect_wave_second_half. rewrite decoder_update_magnitude_spec.
  destruct d as [st pol p p2 p3 base mx mn fo].
  unfold set_sample_count, set_fourier.
  cbn [state polarity phase phase2 phase3 baseline signal_max signal_min
       d_fourier fourier_i frequency_count sample_count sincos_components].
  destruct (Bool.eqb _ pol).
  - destruct (Z.ltb_spec (short_of (sample_count fo + 1)) SAMPLE_COUNT_MIN)
      as [Hlt|Hge];
      unfold set_phase3, set_phase2, set_phase, set_state, set_fourier;
      cbn [state polarity phase phase2 phase3 baseline signal_max signal_min
           d_fourier fourier_i frequency_count sample_count
           sincos_components];
      repeat split; right; split; auto; lia.
  - cbn [state signal_max signal_min]. auto.
Qed.

Section Invariants.
Context {L : Libm}.

(** The decoding states never write the magnitude range; Calibrate stays,
    restarts or starts decoding, and DecodeData stays or ends. *)
Lemma decoding_step_frame (d : decoder) (sample : Z) :
  state d = DECODER_DETECT_CALIBRATE \/ state d = DECODER_DECODE_DATA ->
  let d' := fst (decoder_decode d sample) in
  signal_max d' = signal_max d
  /\ signal_min d' = signal_min d
  /\ (state d = DECODER_DETECT_CALIBRATE ->
      state d' = DECODER_DETECT_CALIBRATE \/ state d' = DECODER_INIT
      \/ state d' = DECODER_DECODE_DATA)
  /\ (state d = DECODER_DECODE_DATA ->
      state d' = DECODER_DECODE_DATA \/ state d' = DECODER_EOF).
Proof.
  intros Hst. cbv zeta. unfold decoder_decode.
  set (fs := normalize d sample).
  destruct (decoder_decode_byte_frame d fs) as (ph & fo & Heq & _ & _).
  destruct Hst as [Hst|Hst]; rewrite Hst.
  - unfold detect_calibrate.
    destruct (phase d <? 0).
    { unfold set_phase. cbn [fst signal_max signal_min state].
      rewrite Hst. repeat split; auto; discriminate. }
    destruct (decoder_decode_byte d fs) as [d1 byte]. cbn [fst] in Heq.
    destruct (byte =? DECODER_RET_EOF).
    { subst d1. unfold set_state. cbn [fst signal_max signal_min state].
      repeat split; auto; discriminate. }
    destruct (0 <=? byte); cbn [fst].
    + destruct (after_byte_frame true d1 byte fs)
        as (Hmax & Hmin & _ & _ & _ & _ & Hs).
      rewrite Hmax, Hmin. subst d1. cbn [signal_max signal_min state] in *.
      repeat split; try discriminate. intros _.
      destruct Hs as [Hs|(_ & _ & Hs)]; rewrite Hs; [rewrite Hst|]; auto.
    + subst d1. cbn [signal_max signal_min state]. rewrite Hst.
      repeat split; auto; discriminate.
  - unfold decode_data.
    destruct (phase d <? 0).
    { unfold set_phase. cbn [fst signal_max signal_min state].
      rewrite Hst. repeat split; auto; discriminate. }
    destruct (decoder_decode_byte d fs) as [d1 byte]. cbn [fst] in Heq.
    set (d2 := if byte =? DECODER_RET_EOF
               then set_state d1 DECODER_EOF else d1).
    assert (H2 : signal_max d2 = signal_max d /\ signal_min d2 = signal_min d
                 /\ (state d2 = DECODER_DECODE_DATA
                     \/ state d2 = DECODER_EOF)).
    { subst d2 d1. destruct (byte =? DECODER_RET_EOF); unfold set_state;
        cbn [signal_max signal_min state]; auto. }
    destruct H2 as (Hmax2 & Hmin2 & Hst2).
    destruct (0 <=? byte); cbn [fst].
    + destruct (after_byte_frame false d2 byte fs)
        as (Hmax & Hmin & _ & _ & _ & _ & Hs).
      rewrite Hmax, Hmin. repeat split; try assumption; try discriminate.
      intros _. destruct Hs as [Hs|(Hc & _)]; [|discriminate Hc].
      rewrite Hs. exact Hst2.
    + repeat split; try assumption; try discriminate. intros _. exact Hst2.
Qed.

Lemma detect_polarity_inv (d : decoder) (sample : Z) :
  state d = DECODER_DETECT_POLARITY ->
  sample_count (d_fourier d) = 0 ->
  acquisition_inv (detect_polarity d sample).
Proof.
  intros Hst Hn. unfold detect_polarity.
  rewrite decoder_update_magnitude_spec.
  cbn [baseline].
  destruct ((TIMING_SIGNAL_THRESHOLD <? sample - baseline d)
            || (sample - baseline d <? - TIMING_SIGNAL_THRESHOLD)) eqn:Hthr.
  - match goal with |- acquisition_inv (detect_wave_first_half ?x _) =>
      set (d0 := x) end.
    destruct (detect_wave_first_half_spec d0 sample) as (Hmax & Hmin & Hs).
    assert (Hs0 : state d0 = DECODER_DETECT_WAVE_FIRST_HALF) by reflexivity.
    assert (Hmax0 : signal_max d0 = baseline d) by reflexivity.
    assert (Hmin0 : signal_min d0 = baseline d) by reflexivity.
    split.
    + intros Habs. destruct Hs as [Hs|Hs]; rewrite Hs in Habs;
        [rewrite Hs0 in Habs|]; discriminate.
    + intros _. rewrite Hmax, Hmin, Hmax0, Hmin0.
      apply orb_true_iff in Hthr. rewrite !Z.ltb_lt in Hthr.
      unfold TIMING_SIGNAL_THRESHOLD in *. lia.
  - unfold set_baseline. split; cbn [state d_fourier].
    + intros _. exact Hn.
    + rewrite Hst. cbn. lia.
Qed.

Lemma acquisition_inv_step (d : decoder) (sample : Z) :
  acquisition_inv d -> acquisition_inv (fst (decoder_decode d sample)).
Proof.
  intros [Hpol Hrange]. unfold decoder_decode.
  destruct (state d) eqn:Hst; cbn [fst].
  - split; [reflexivity | cbn; lia].
  - apply detect_polarity_inv; auto.
  - destruct (detect_wave_first_half_spec d sample) as (Hmax & Hmin & Hs).
    cbv zeta in *. split.
    + intros Habs. destruct Hs as [Hs|Hs]; rewrite Hs in Habs;
        [rewrite Hst in Habs|]; discriminate.
    + intros _. rewrite Hmax, Hmin.
      assert (TIMING_SIGNAL_THRESHOLD < signal_max d - signal_min d)
        by (apply Hrange; cbn; lia).
      lia.
  - destruct (detect_wave_second_half_spec d sample) as (Hmax & Hmin & Hs).
    cbv zeta in *. split.
    + intros Habs. destruct Hs as [Hs|[Hs _]]; rewrite Hs in Habs;
        [rewrite Hst in Habs|]; discriminate.
    + intros _. rewrite Hmax, Hmin.
      assert (TIMING_SIGNAL_THRESHOLD < signal_max d - signal_min d)
        by (apply Hrange; cbn; lia).
      lia.
  - assert (Hdec : state d = DECODER_DETECT_CALIBRATE
                   \/ state d = DECODER_DECODE_DATA) by auto.
    pose proof (decoding_step_frame d sample Hdec) as (Hmax & Hmin & Hc & _).
    specialize (Hc Hst).
    unfold decoder_decode in Hmax, Hmin, Hc. rewrite Hst in Hmax, Hmin, Hc.
    split; [intros Habs; rewrite Habs in Hc; intuition discriminate|].
    intros _. rewrite Hmax, Hmin. apply Hrange. cbn. lia.
  - assert (Hdec : state d = DECODER_DETECT_CALIBRATE
                   \/ state d = DECODER_DECODE_DATA) by auto.
    pose proof (decoding_step_frame d sample Hdec) as (Hmax & Hmin & _ & Hc).
    specialize (Hc Hst).
    unfold decoder_decode in Hmax, Hmin, Hc. rewrite Hst in Hmax, Hmin, Hc.
    split; [intros Habs; rewrite Habs in Hc; intuition discriminate|].
    intros _. rewrite Hmax, Hmin. apply Hrange. cbn. lia.
  - split; [rewrite Hst; discriminate|]. intros _. apply Hrange. cbn. lia.
Qed.

Lemma reachable_acquisition_inv (d : decoder) :
  reachable d -> acquisition_inv d.
Proof.
  induction 1 as [|d sample _ IH _].
  - split; [discriminate|]. cbn. lia.
  - now apply acquisition_inv_step.
Qed.

End Invariants.

(** ** The window length and the normalization range *)

Section Reachability.
Context {L : Libm}.

Lemma reachable_feed (d : decoder) (samples : list Z) :
  reachable d -> Forall is_uint16 samples ->
  reachable (decoder_feed d samples).
Proof.
  intros Hd Hs. revert d Hd.
  induction Hs as [|x rest Hx _ IH]; intros d Hd; [exact Hd|].
  apply IH. now apply reachable_step.
Qed.

Lemma detect_polarity_state (d : decoder) (sample : Z) :
  state (detect_polarity d sample) = state d
  \/ state (detect_polarity d sample) = DECODER_DETECT_WAVE_FIRST_HALF
  \/ state (detect_polarity d sample) = DECODER_DETECT_WAVE_SECOND_HALF.
Proof.
  unfold detect_polarity. rewrite decoder_update_magnitude_spec.
  cbn [baseline].
  destruct ((TIMING_SIGNAL_THRESHOLD <? sample - baseline d)
            || (sample - baseline d <? - TIMING_SIGNAL_THRESHOLD)).
  - match goal with |- context [detect_wave_first_half ?x _] =>
      destruct (detect_wave_first_half_spec x sample) as (_ & _ & [Hs|Hs])
    end; rewrite Hs; auto.
  - left. reflexivity.
Qed.

(** Calibrate is entered from the second half-wave only, and then with
    the window length floored. *)
Lemma enter_calibrate (d : decoder) (sample : Z) :
  state d <> DECODER_DETECT_CALIBRATE ->
  state (fst (decoder_decode d sample)) = DECODER_DETECT_CALIBRATE ->
  state d = DECODER_DETECT_WAVE_SECOND_HALF
  /\ SAMPLE_COUNT_MIN <= sample_count (d_fourier (fst (decoder_decode d sample))).
Proof.
  intros Hne Hcal.
  destruct (state d) eqn:Hst; try contradiction.
  - unfold decoder_decode in Hcal. rewrite Hst in Hcal. discriminate Hcal.
  - unfold decoder_decode in Hcal. rewrite Hst in Hcal. cbn [fst] in Hcal.
    destruct (detect_polarity_state d sample) as [Hs|[Hs|Hs]];
      rewrite Hs in Hcal; [rewrite Hst in Hcal| |]; discriminate Hcal.
  - unfold decoder_decode in Hcal. rewrite Hst in Hcal. cbn [fst] in Hcal.
    destruct (detect_wave_first_half_spec d sample) as (_ & _ & [Hs|Hs]);
      rewrite Hs in Hcal; [rewrite Hst in Hcal|]; discriminate Hcal.
  - split; [reflexivity|].
    unfold decoder_decode in *. rewrite Hst in *. cbn [fst] in *.
    destruct (detect_wave_second_half_spec d sample)
      as (_ & _ & [Hs|[_ Hn]]); [|exact Hn].
    rewrite Hs, Hst in Hcal. discriminate Hcal.
  - destruct (decoding_step_frame d sample (or_intror Hst))
      as (_ & _ & _ & Hs).
    destruct (Hs Hst) as [Hs'|Hs']; rewrite Hs' in Hcal; discriminate Hcal.
  - rewrite (decoder_eof_step d sample Hst) in Hcal. cbn [fst] in Hcal.
    rewrite Hst in Hcal. discriminate Hcal.
Qed.

(** The window length before decoding starts: in every reachable state it
    is 0 while the polarity is being detected, and whenever a call of
    [decoder_decode] brings the decoder into Calibrate the window length
    it leaves is at least 19. *)
Theorem window_length_floor :
  (forall d, reachable d -> state d = DECODER_DETECT_POLARITY ->
             sample_count (d_fourier d) = 0)
  /\ (forall d sample,
        state d <> DECODER_DETECT_CALIBRATE ->
        state (fst (decoder_decode d sample)) = DECODER_DETECT_CALIBRATE ->
        SAMPLE_COUNT_MIN
        <= sample_count (d_fourier (fst (decoder_decode d sample)))).
Proof.
  split.
  - intros d Hd. apply (reachable_acquisition_inv d Hd).
  - intros d sample Hne Hcal. now apply enter_calibrate.
Qed.

(** C10: in every reachable state at or past Calibrate the magnitude
    range [signal_max - signal_min], the divisor of the normalization, is
    above the timing threshold 64, hence strictly positive. *)
Theorem normalization_range (d : decoder) :
  reachable d ->
  state d = DECODER_DETECT_CALIBRATE \/ state d = DECODER_DECODE_DATA
  \/ state d = DECODER_EOF ->
  TIMING_SIGNAL_THRESHOLD < signal_max d - signal_min d
  /\ 0 < signal_max d - signal_min d.
Proof.
  intros Hd Hst.
  assert (H : TIMING_SIGNAL_THRESHOLD < signal_max d - signal_min d).
  { apply (reachable_acquisition_inv d Hd).
    destruct Hst as [->|[->| ->]]; cbn; lia. }
  split; [exact H|]. unfold TIMING_SIGNAL_THRESHOLD in H. lia.
Qed.

End Reachability.

Lemma short_wave_uint16 : Forall is_uint16 short_wave.
Proof. repeat constructor; unfold is_uint16; lia. Qed.

Example short_wave_calibrates :
  let d := @decoder_feed SoftLibm.libm decoder_init short_wave in
  state d = DECODER_DETECT_CALIBRATE
  /\ sample_count (d_fourier d) = 19
  /\ signal_max d = 700 /\ signal_min d = 300.
Proof. vm_compute. repeat split; reflexivity. Qed.

Lemma window_length_floor_witness :
  sample_count
    (d_fourier (@decoder_feed SoftLibm.libm decoder_init [512; 512])) = 0
  /\ SAMPLE_COUNT_MIN
     <= sample_count
          (d_fourier
             (fst (@decoder_decode SoftLibm.libm
                     (@decoder_feed SoftLibm.libm decoder_init
                                    [512; 700; 300]) 600))).
Proof.
  split.
  - apply (proj1 (@window_length_floor SoftLibm.libm)).
    + apply reachable_feed; [apply reachable_init|].
      repeat constructor; unfold is_uint16; lia.
    + vm_compute. reflexivity.
  - apply (proj2 (@window_length_floor SoftLibm.libm)).
    + vm_compute. discriminate.
    + vm_compute. reflexivity.
Defined.

Lemma normalization_range_witness :
  TIMING_SIGNAL_THRESHOLD
  < signal_max (@decoder_feed SoftLibm.libm decoder_init short_wave)
    - signal_min (@decoder_feed SoftLibm.libm decoder_init short_wave)
  /\ 0 < signal_max (@decoder_feed SoftLibm.libm decoder_init short_wave)
         - signal_min (@decoder_feed SoftLibm.libm decoder_init short_wave).
Proof.
  apply (@normalization_range SoftLibm.libm).
  - apply reachable_feed; [apply reachable_init | apply short_wave_uint16].
  - left. vm_compute. reflexivity.
Defined.

(** The freshly initialized decoder, a reachable state, has a window
    length of 0: until Calibrate is entered the field counts samples. *)
Lemma window_length_invariant_fails :
  ~ (forall (L : Libm) (d : decoder),
       reachable d -> SAMPLE_COUNT_MIN <= sample_count (d_fourier d)).
Proof.
  intros H. specialize (H SoftLibm.libm decoder_init reachable_init).
  vm_compute in H. apply H. reflexivity.
Qed.

(** ** The two programs end to end, on the software C library *)

Lemma forallb_is_uint16 (samples : list Z) :
  forallb (fun z => (0 <=? z) && (z <? 65536)) samples = true ->
  Forall is_uint16 samples.
Proof.
  intros H. apply Forall_forall. intros z Hz.
  rewrite forallb_forall in H. specialize (H z Hz).
  apply andb_true_iff in H as [H1 H2].
  apply Z.leb_le in H1. apply Z.ltb_lt in H2. split; assumption.
Qed.

(** Two projections of one value, evaluated once. *)
Lemma project_both {A B C : Type} (f : A -> B) (g : A -> C) (x : A)
    (b : B) (c : C) :
  (let y := x in (f y, g y)) = (b, c) -> f x = b /\ g x = c.
Proof. cbv zeta. intros H. inversion H. split; reflexivity. Qed.

(** ** The drift statement and the false-lock retry on reachable states *)

(** The first 260 samples of the frame of the byte 0x48 bring the decoder
    to the last sample of the first window of the terminator. *)
Example frame_0x48_last_window :
  @decoder_feed SoftLibm.libm decoder_init
    (firstn 260 (map pcm_to_sample (read_samples (@encode SoftLibm.libm [72]))))
  = @decoder_feed SoftLibm.libm last_window_start (repeat 512 19).
Proof. vm_compute. reflexivity. Qed.

(** C5, as the specification words it, fails on the frame of the byte
    0x48: the 261st sample completes the first window of the terminator,
    which demodulates to the value 0 (end-of-stream, phase 0); the three
    measurements 0, -2, 0 are not consistent, yet the history is not
    shifted: the middle slot keeps -2 where the shift would store the
    measurement 0. *)
Lemma drift_correction_as_stated_fails :
  ~ (forall (L : Libm) (d : decoder) (sample : Z) (d1 : decoder) (byte : Z),
       reachable d ->
       state d = DECODER_DETECT_CALIBRATE \/ state d = DECODER_DECODE_DATA ->
       0 <= phase d ->
       decoder_decode_byte d (normalize d sample) = (d1, byte) ->
       byte <> DECODER_RET_NO_DATA ->
       let d' := fst (decoder_decode d sample) in
       let p1 := phase d1 in
       let p2 := phase2 d in
       let p3 := phase3 d in
       let n := sample_count (d_fourier d) in
       ((0 < p1 /\ 0 < p2 /\ 0 < p3) \/ (p1 < 0 /\ p2 < 0 /\ p3 < 0) ->
        sample_count (d_fourier d') = short_of (n - Z.quot (p1 + p2 + p3) 3)
        /\ phase2 d' = 0 /\ phase3 d' = p3)
       /\ (~ ((0 < p1 /\ 0 < p2 /\ 0 < p3) \/ (p1 < 0 /\ p2 < 0 /\ p3 < 0)) ->
           sample_count (d_fourier d') = n
           /\ phase2 d' = p1 /\ phase3 d' = p2)).
Proof.
  intros H.
  assert (Hr : @reachable SoftLibm.libm
                 (@decoder_feed SoftLibm.libm decoder_init
                    (firstn 260 (map pcm_to_sample
                                   (read_samples
                                      (@encode SoftLibm.libm [72])))))).
  { apply reachable_feed; [apply reachable_init|].
    apply forallb_is_uint16. vm_compute. reflexivity. }
  rewrite frame_0x48_last_window in Hr.
  set (d := @decoder_feed SoftLibm.libm last_window_start (repeat 512 19))
    in *.
  specialize
    (H SoftLibm.libm d 512
       (fst (@decoder_decode_byte SoftLibm.libm d (normalize d 512)))
       (snd (@decoder_decode_byte SoftLibm.libm d (normalize d 512))) Hr).
  cbv zeta in H.
  assert (E : phase (fst (@decoder_decode_byte SoftLibm.libm d
                            (normalize d 512))) = 0)
    by (vm_compute; reflexivity).
  assert (E2 : phase2 (fst (@decoder_decode SoftLibm.libm d 512)) = -2)
    by (vm_compute; reflexivity).
  rewrite E, E2 in H.
  destruct H as [_ H].
  - right. vm_compute. reflexivity.
  - vm_compute. discriminate.
  - apply surjective_pairing.
  - vm_compute. discriminate.
  - destruct H as (_ & H & _); [|discriminate H].
    intros [[H0 _]|[H0 _]]; lia.
Qed.

(** The call the counterexample above rests on: end-of-stream comes out,
    the decoder reaches Eof, and the history -2, 0 stays where it was. *)
Example frame_0x48_end_of_stream :
  let d := @decoder_feed SoftLibm.libm last_window_start (repeat 512 19) in
  (fun r => (snd r, state (fst r), phase (fst r), phase2 (fst r),
             phase3 (fst r)))
    (@decoder_decode SoftLibm.libm d 512)
  = (DECODER_RET_EOF, DECODER_EOF, 0, -2, 0).
Proof. vm_compute. reflexivity. Qed.




(** The call the counterexample above rests on; it leaves a window of one
    sample. *)
Example shrinking_wave_extra_step :
  let d := @decoder_feed SoftLibm.libm decoder_init shrinking_wave in
  (fun r => (snd r, state (fst r), sample_count (d_fourier (fst r)),
             fourier_i (d_fourier (fst r)),
             phase (fst r), phase2 (fst r), phase3 (fst r)))
    (@decoder_decode SoftLibm.libm d 300)
  = (DECODER_RET_NO_DATA, DECODER_DETECT_CALIBRATE, 1, 0, 0, 0, 1).
Proof. cbv zeta. rewrite shrinking_wave_state. vm_compute. reflexivity. Qed.

(** With the sample 310 both demodulations of the call yield the byte
    0xFF: the first is followed by the correction of the window (history
    1, 1, 1), the extra one by no drift statement (history 0, 0, 1 where a
    shift would leave 0, 0, 0). *)
Example shrinking_wave_extra_step_310 :
  let d := @decoder_feed SoftLibm.libm decoder_init shrinking_wave in
  let d1 := fst (@decoder_decode_byte SoftLibm.libm d (normalize d 310)) in
  (snd (@decoder_decode_byte SoftLibm.libm d (normalize d 310)),
   phase d1, phase2 d1, phase3 d1,
   snd (@decoder_decode_byte SoftLibm.libm (drift_correct d1)
          (normalize d 310)),
   (fun r => (snd r, state (fst r), sample_count (d_fourier (fst r)),
             fourier_i (d_fourier (fst r)),
             phase (fst r), phase2 (fst r), phase3 (fst r)))
    (@decoder_decode SoftLibm.libm d 310))
  = (255, 1, 1, 1, 255,
     (DECODER_RET_NO_DATA, DECODER_DETECT_CALIBRATE, 1, 0, 0, 0, 1)).
Proof. cbv zeta. rewrite shrinking_wave_state. vm_compute. reflexivity. Qed.

(** The scenario of the specification: the frame of the single byte 0x48
    decodes to that byte. *)
Example round_trip_0x48 :
  @s2d_main SoftLibm.libm (@encode SoftLibm.libm [72]) = [72].
Proof. vm_compute. reflexivity. Qed.

(** C1 fails on the byte sequence [0xFF]: with the software C library the
    frame the encoder writes for it decodes to two bytes, 0xFF 0xFF.  The
    decoder's windows start one sample before the encoder's symbols; the
    last sample of the nine-tone symbol is at full negative scale, and alone
    in the next window it puts every carrier above the threshold. *)
Theorem round_trip_fails_on_0xFF :
  @s2d_main SoftLibm.libm (@encode SoftLibm.libm [255]) = [255; 255].
Proof. vm_compute. reflexivity. Qed.

(** On that frame no end-of-stream is returned: when the input is
    exhausted the decoder is still in DecodeData. *)
Example round_trip_0xFF_no_end_of_stream :
  state (fst (@decode_stream SoftLibm.libm decoder_init
                (map pcm_to_sample
                   (read_samples (@encode SoftLibm.libm [255])))))
  = DECODER_DECODE_DATA.
Proof. vm_compute. reflexivity. Qed.

(** * Further properties *)

(** Setters and projections on a record given by its fields, innermost
    first. *)
Ltac setters :=
  cbv beta iota zeta delta
    [set_state set_polarity set_phase set_phase2 set_phase3 set_baseline
     set_signal_max set_signal_min set_fourier set_sample_count
     state polarity phase phase2 phase3 baseline signal_max signal_min
     d_fourier fourier_i frequency_count sample_count sincos_components
     fst snd].

(** ** The magnitude tracker and the polarity detection *)


Lemma quot8_between (diff : Z) :
  Z.abs (diff - Z.quot diff 8) <= Z.abs diff
  /\ (0 <= diff -> 0 <= Z.quot diff 8 <= diff)
  /\ (diff <= 0 -> diff <= Z.quot diff 8 <= 0).
Proof.
  pose proof (Z.quot_rem' diff 8) as Hqr.
  destruct (Z.le_gt_cases 0 diff) as [Hpos|Hneg].
  - pose proof (Z.rem_bound_pos diff 8 Hpos ltac:(lia)). lia.
  - pose proof (Z.rem_bound_pos_neg diff 8 ltac:(lia) ltac:(lia)). lia.
Qed.

(** While the sample stays within the timing threshold of the baseline,
    the polarity detection stays where it is and moves the baseline toward
    the sample by an eighth of the difference (truncated toward zero),
    never past it and never out of [uint16_t]. *)
Theorem detect_polarity_tracks_baseline {L : Libm} (d : decoder)
    (sample : Z) :
  state d = DECODER_DETECT_POLARITY ->
  is_uint16 (baseline d) -> is_uint16 sample ->
  Z.abs (sample - baseline d) <= TIMING_SIGNAL_THRESHOLD ->
  let d' := fst (decoder_decode d sample) in
  state d' = DECODER_DETECT_POLARITY
  /\ snd (decoder_decode d sample) = DECODER_RET_NO_DATA
  /\ baseline d' = baseline d + Z.quot (sample - baseline d) 8
  /\ Z.abs (sample - baseline d') <= Z.abs (sample - baseline d)
  /\ (Z.abs (sample - baseline d) < 8 -> baseline d' = baseline d)
  /\ is_uint16 (baseline d')
  /\ d_fourier d' = d_fourier d.
Proof.
  intros Hst Hb Hs Habs. cbv zeta.
  unfold decoder_decode. rewrite Hst. cbn [fst snd].
  unfold detect_polarity. rewrite decoder_update_magnitude_spec.
  cbn [baseline]. unfold TIMING_SIGNAL_THRESHOLD in *.
  change (Z.opp 64) with (Zneg 64).
  destruct (Z.ltb_spec 64 (sample - baseline d)) as [H1|H1]; [lia|].
  destruct (Z.ltb_spec (sample - baseline d) (-64)) as [H2|H2]; [lia|].
  cbn [orb]. unfold set_baseline.
  cbn [state baseline d_fourier].
  pose proof (quot8_between (sample - baseline d)) as (Hq1 & Hq2 & Hq3).
  unfold is_uint16 in *.
  assert (Hw : uint16_of (baseline d + Z.quot (sample - baseline d) 8)
               = baseline d + Z.quot (sample - baseline d) 8).
  { unfold uint16_of, wrap_unsigned. change (2 ^ 16) with 65536.
    apply Z.mod_small. lia. }
  rewrite Hw. repeat split; try lia; try assumption.
  intros Hsmall.
  assert (Z.quot (sample - baseline d) 8 = 0) by (apply Z.quot_small_iff; lia).
  lia.
Qed.

Lemma detect_polarity_tracks_baseline_witness :
  baseline (fst (@decoder_decode SoftLibm.libm
                   (@decoder_feed SoftLibm.libm decoder_init [512]) 540))
  = 515.
Proof.
  rewrite (proj1 (proj2 (proj2
    (@detect_polarity_tracks_baseline SoftLibm.libm
       (@decoder_feed SoftLibm.libm decoder_init [512]) 540
       eq_refl ltac:(vm_compute; split; [discriminate|reflexivity])
       ltac:(unfold is_uint16; lia)
       ltac:(vm_compute; discriminate))))).
  reflexivity.
Defined.

(** A sample further than the timing threshold from the baseline ends the
    polarity detection within the same call: the polarity is the sign of
    the difference, the magnitude range is restarted as exactly the span
    between baseline and sample, the sample is counted as the first of the
    wave, and the first half-wave detection is the next state. *)
Theorem detect_polarity_triggers {L : Libm} (d : decoder) (sample : Z) :
  state d = DECODER_DETECT_POLARITY ->
  TIMING_SIGNAL_THRESHOLD < Z.abs (sample - baseline d) ->
  let d' := fst (decoder_decode d sample) in
  state d' = DECODER_DETECT_WAVE_FIRST_HALF
  /\ polarity d' = (baseline d <? sample)
  /\ signal_max d' = Z.max (baseline d) sample
  /\ signal_min d' = Z.min (baseline d) sample
  /\ baseline d' = baseline d
  /\ sample_count (d_fourier d')
     = short_of (sample_count (d_fourier d) + 1).
Proof.
  intros Hst Habs. cbv zeta.
  unfold decoder_decode. rewrite Hst. cbn [fst].
  destruct d as [st pol p p2 p3 base mx mn [i fc n c]].
  unfold detect_polarity, detect_wave_first_half.
  rewrite !decoder_update_magnitude_spec.
  unfold TIMING_SIGNAL_THRESHOLD in *. change (Z.opp 64) with (Zneg 64).
  setters. cbn [baseline] in Habs.
  assert (Hthr : (64 <? sample - base) || (sample - base <? -64) = true).
  { apply orb_true_iff. rewrite !Z.ltb_lt. lia. }
  rewrite Hthr. setters.
  replace (base - base) with 0 by lia.
  assert (Hpol : (0 <? sample - base) = (base <? sample)).
  { destruct (Z.ltb_spec 0 (sample - base)), (Z.ltb_spec base sample);
      auto; lia. }
  rewrite Hpol.
  destruct (Z.ltb_spec base sample) as [Hup|Hdown].
  - destruct (Z.ltb_spec 0 (base - sample)); [lia|]. setters.
    repeat split.
  - destruct (Z.ltb_spec 0 (sample - base)); [lia|]. setters.
    repeat split.
Qed.

Lemma detect_polarity_triggers_witness :
  state (fst (@decoder_decode SoftLibm.libm
                (@decoder_feed SoftLibm.libm decoder_init [512]) 700))
  = DECODER_DETECT_WAVE_FIRST_HALF.
Proof.
  apply (@detect_polarity_triggers SoftLibm.libm
           (@decoder_feed SoftLibm.libm decoder_init [512]) 700 eq_refl).
  vm_compute. reflexivity.
Defined.

(** ** The state machine: arrows and results *)

Section Machine.
Context {L : Libm}.

Lemma detect_polarity_next (d : decoder) (sample : Z) :
  state (detect_polarity d sample) = state d
  \/ state (detect_polarity d sample) = DECODER_DETECT_WAVE_FIRST_HALF.
Proof.
  unfold detect_polarity, detect_wave_first_half.
  rewrite !decoder_update_magnitude_spec.
  destruct d as [st pol p p2 p3 base mx mn [i fc n c]].
  unfold TIMING_SIGNAL_THRESHOLD. change (Z.opp 64) with (Zneg 64).
  setters.
  destruct ((64 <? sample - base) || (sample - base <? -64)) eqn:Hthr;
    setters; [|left; reflexivity].
  right. apply orb_true_iff in Hthr. rewrite !Z.ltb_lt in Hthr.
  replace (base - base) with 0 by lia.
  destruct (Z.ltb_spec 0 (sample - base)) as [Hup|Hdown].
  - destruct (Z.ltb_spec 0 (base - sample)); [lia|]. reflexivity.
  - destruct (Z.ltb_spec 0 (sample - base)); [lia|]. reflexivity.
Qed.

(** Every call of [decoder_decode] follows one of the thirteen arrows of
    the state machine: acquisition only moves forward, Calibrate is left
    for Init or DecodeData only, DecodeData for Eof only, and Eof never. *)
Theorem decoder_decode_follows_transition (d : decoder) (sample : Z) :
  transition (state d) (state (fst (decoder_decode d sample))).
Proof.
  destruct (state d) eqn:Hst.
  - unfold decoder_decode. rewrite Hst. cbn [fst]. constructor.
  - unfold decoder_decode. rewrite Hst. cbn [fst].
    destruct (detect_polarity_next d sample) as [Hs|Hs]; rewrite Hs;
      [rewrite Hst|]; constructor.
  - unfold decoder_decode. rewrite Hst. cbn [fst].
    destruct (detect_wave_first_half_spec d sample) as (_ & _ & [Hs|Hs]);
      rewrite Hs; [rewrite Hst|]; constructor.
  - unfold decoder_decode. rewrite Hst. cbn [fst].
    destruct (detect_wave_second_half_spec d sample)
      as (_ & _ & [Hs|[Hs _]]); rewrite Hs; [rewrite Hst|]; constructor.
  - destruct (decoding_step_frame d sample (or_introl Hst))
      as (_ & _ & Hs & _).
    destruct (Hs Hst) as [Hs'|[Hs'|Hs']]; rewrite Hs'; constructor.
  - destruct (decoding_step_frame d sample (or_intror Hst))
      as (_ & _ & _ & Hs).
    destruct (Hs Hst) as [Hs'|Hs']; rewrite Hs'; constructor.
  - rewrite (decoder_eof_step d sample Hst). cbn [fst]. rewrite Hst.
    constructor.
Qed.

Lemma decoder_decode_byte_result (d : decoder) (sample : spec_float) :
  let r := snd (decoder_decode_byte d sample) in
  r = DECODER_RET_NO_DATA \/ r = DECODER_RET_EOF \/ 0 <= r <= 255.
Proof.
  cbv zeta. unfold decoder_decode_byte.
  destruct (fourier_add_sample (d_fourier d) sample) as [fo [|]]; cbn [snd];
    [|left; reflexivity].
  right. destruct (_ =? 0); [left; reflexivity|right].
  change 255 with (Z.ones 8). rewrite Z.land_ones by lia.
  pose proof (Z.mod_pos_bound
                (demod_bits (Z.to_nat (frequency_count fo))
                            (fourier_to_frequency fo)) (2 ^ 8) ltac:(lia)).
  change (2 ^ 8) with 256 in *. change (Z.ones 8) with 255. lia.
Qed.

(** The three kinds of calls of [decoder_decode]. *)
Lemma decoder_decode_cases (d : decoder) (sample : Z) :
  (snd (decoder_decode d sample) = DECODER_RET_NO_DATA)
  \/ (state d = DECODER_DECODE_DATA
      /\ (snd (decoder_decode d sample) = DECODER_RET_EOF
          /\ state (fst (decoder_decode d sample)) = DECODER_EOF
          \/ 0 <= snd (decoder_decode d sample) <= 255))
  \/ (state d = DECODER_EOF
      /\ snd (decoder_decode d sample) = DECODER_RET_EOF
      /\ state (fst (decoder_decode d sample)) = DECODER_EOF).
Proof.
  unfold decoder_decode. destruct (state d) eqn:Hst; cbn [fst snd];
    try (left; reflexivity).
  - left. unfold detect_calibrate.
    destruct (phase d <? 0); [reflexivity|].
    destruct (decoder_decode_byte d (normalize d sample)) as [d1 byte].
    destruct (byte =? DECODER_RET_EOF); [reflexivity|].
    destruct (0 <=? byte); reflexivity.
  - unfold decode_data.
    destruct (phase d <? 0); [left; reflexivity|].
    pose proof (decoder_decode_byte_result d (normalize d sample)) as Hr.
    cbv zeta in Hr.
    destruct (decoder_decode_byte d (normalize d sample)) as [d1 byte].
    cbn [snd] in Hr.
    destruct Hr as [Hr|[Hr|Hr]].
    + left. subst byte. reflexivity.
    + right. left. split; [reflexivity|]. left. subst byte.
      split; reflexivity.
    + right. left. split; [reflexivity|]. right.
      destruct (Z.leb_spec 0 byte); [|lia]. cbn [snd]. lia.
  - right. right. rewrite Hst. repeat split.
Qed.

(** What a call of [decoder_decode] can return: "no data yet",
    end-of-stream, or a byte 0..255, and never the error code.  A byte
    comes out of the DecodeData state only, so never before the start
    byte; end-of-stream comes out of DecodeData or Eof only, and leaves the
    decoder in Eof. *)
Theorem decoder_decode_result (d : decoder) (sample : Z) :
  let r := snd (decoder_decode d sample) in
  (r = DECODER_RET_NO_DATA \/ r = DECODER_RET_EOF \/ 0 <= r <= 255)
  /\ r <> DECODER_RET_ERROR
  /\ (0 <= r -> state d = DECODER_DECODE_DATA)
  /\ (r = DECODER_RET_EOF ->
      (state d = DECODER_DECODE_DATA \/ state d = DECODER_EOF)
      /\ state (fst (decoder_decode d sample)) = DECODER_EOF).
Proof.
  cbv zeta. pose proof (decoder_decode_cases d sample) as Hcases.
  unfold DECODER_RET_NO_DATA, DECODER_RET_EOF, DECODER_RET_ERROR in *.
  destruct Hcases as [H|[(Hst & [(H & H')|H])|(Hst & H & H')]];
    repeat split; try lia; auto; try (intros; lia).
Qed.

End Machine.

Lemma decoder_decode_result_witness :
  state silent_window_end = DECODER_DECODE_DATA
  /\ state (fst (@decoder_decode SoftLibm.libm silent_window_end 0))
     = DECODER_EOF.
Proof.
  pose proof (@decoder_decode_result SoftLibm.libm silent_window_end 0)
    as (_ & _ & _ & H).
  split; [reflexivity|]. apply H. vm_compute. reflexivity.
Defined.

(** ** The phase guard and the drift corrector *)

Lemma set_phase_idem (d : decoder) (a b : Z) :
  set_phase (set_phase d a) b = set_phase d b.
Proof. reflexivity. Qed.

Lemma set_phase_same (d : decoder) : set_phase d (phase d) = d.
Proof. destruct d. reflexivity. Qed.

(** A pending negative phase of [-k] makes the two decoding states swallow
    the next [k] samples: each of those calls returns "no data yet" and
    only counts the phase up by one, leaving the analyzer, the window
    length and the history untouched; after [k] samples the phase is 0. *)
Theorem negative_phase_guard {L : Libm} (d : decoder) (samples : list Z) :
  state d = DECODER_DETECT_CALIBRATE \/ state d = DECODER_DECODE_DATA ->
  is_int16 (phase d) ->
  Z.of_nat (length samples) <= - phase d ->
  decoder_run d samples
  = (set_phase d (phase d + Z.of_nat (length samples)),
     repeat DECODER_RET_NO_DATA (length samples)).
Proof.
  revert d. induction samples as [|x rest IH]; intros d Hst Hrange Hlen.
  - cbn [decoder_run length repeat Z.of_nat].
    rewrite Z.add_0_r, set_phase_same. reflexivity.
  - cbn [length] in *. rewrite Nat2Z.inj_succ in *.
    assert (Hneg : phase d < 0) by lia.
    assert (Hstep : decoder_decode d x
                    = (set_phase d (phase d + 1), DECODER_RET_NO_DATA)).
    { unfold decoder_decode, detect_calibrate, decode_data.
      assert (Hlt : (phase d <? 0) = true) by (apply Z.ltb_lt; lia).
      unfold int16_of. rewrite wrap_signed_small
        by (unfold is_int16 in Hrange; lia).
      destruct Hst as [-> | ->]; rewrite Hlt; reflexivity. }
    cbn [decoder_run]. rewrite Hstep.
    rewrite (IH (set_phase d (phase d + 1))).
    + change (phase (set_phase d (phase d + 1))) with (phase d + 1).
      rewrite set_phase_idem. cbn [repeat]. do 2 f_equal. lia.
    + exact Hst.
    + change (phase (set_phase d (phase d + 1))) with (phase d + 1).
      unfold is_int16 in *. lia.
    + change (phase (set_phase d (phase d + 1))) with (phase d + 1). lia.
Qed.

Lemma negative_phase_guard_witness :
  @decoder_run SoftLibm.libm
    (window_end DECODER_DECODE_DATA (-2) 0 0 (F32.zero, F32.zero))
    [100; 900]
  = (window_end DECODER_DECODE_DATA 0 0 0 (F32.zero, F32.zero),
     [DECODER_RET_NO_DATA; DECODER_RET_NO_DATA]).
Proof.
  apply (@negative_phase_guard SoftLibm.libm
           (window_end DECODER_DECODE_DATA (-2) 0 0 (F32.zero, F32.zero))
           [100; 900]).
  - right. reflexivity.
  - unfold is_int16. cbn. lia.
  - cbn. lia.
Defined.

Lemma quot3_bounds (a lo hi : Z) :
  3 * lo <= a <= 3 * hi -> lo <= Z.quot a 3 <= hi.
Proof.
  intros H. pose proof (Z.quot_rem' a 3) as Hqr.
  destruct (Z.le_gt_cases 0 a) as [Hpos|Hneg].
  - pose proof (Z.rem_bound_pos a 3 Hpos ltac:(lia)). lia.
  - pose proof (Z.rem_bound_pos_neg a 3 ltac:(lia) ltac:(lia)). lia.
Qed.

(** When the drift corrector adjusts the window, the amount it subtracts
    lies between the smallest and the largest of the three measurements and
    is never zero; three equal measurements [k] subtract exactly [k]. *)
Theorem drift_correct_amount (d : decoder) :
  drift_consistent d = true ->
  let a := Z.quot (phase d + phase2 d + phase3 d) 3 in
  sample_count (d_fourier (drift_correct d))
  = short_of (sample_count (d_fourier d) - a)
  /\ Z.min (phase d) (Z.min (phase2 d) (phase3 d)) <= a
     <= Z.max (phase d) (Z.max (phase2 d) (phase3 d))
  /\ a <> 0
  /\ (phase d = phase2 d -> phase2 d = phase3 d -> a = phase d).
Proof.
  intros Hc. cbv zeta.
  destruct (drift_correct_consistent d Hc) as (Hn & _ & _).
  split; [exact Hn|].
  apply drift_consistent_spec in Hc.
  assert (Hb : Z.min (phase d) (Z.min (phase2 d) (phase3 d))
               <= Z.quot (phase d + phase2 d + phase3 d) 3
               <= Z.max (phase d) (Z.max (phase2 d) (phase3 d)))
    by (apply quot3_bounds; lia).
  split; [exact Hb|]. split; [lia|].
  intros H1 H2.
  replace (phase d + phase2 d + phase3 d) with (phase d * 3) by lia.
  apply Z.quot_mul. lia.
Qed.

Lemma drift_correct_amount_witness :
  sample_count (d_fourier (drift_correct
     (window_end DECODER_DECODE_DATA 2 2 2 (F32.zero, F32.zero))))
  = short_of (19 - Z.quot (2 + 2 + 2) 3).
Proof.
  apply (drift_correct_amount
           (window_end DECODER_DECODE_DATA 2 2 2 (F32.zero, F32.zero))).
  reflexivity.
Defined.

(** After a correction of the window length the next two demodulations
    cannot correct it again, whatever they measure: the cleared middle
    slot has to leave the history first. *)
Theorem drift_corrections_are_spaced (d : decoder) (p q : Z) :
  drift_consistent d = true ->
  let d1 := set_phase (drift_correct d) p in
  let d2 := set_phase (drift_correct d1) q in
  drift_consistent d1 = false
  /\ drift_correct d1 = set_phase2 (set_phase3 d1 0) p
  /\ drift_consistent d2 = false.
Proof.
  intros Hc. cbv zeta.
  destruct (drift_correct_consistent d Hc) as (_ & Hp2 & _).
  assert (H1 : drift_consistent (set_phase (drift_correct d) p) = false).
  { unfold drift_consistent. unfold set_phase at 2. cbn [phase2].
    rewrite Hp2. cbn. now rewrite andb_false_r. }
  split; [exact H1|].
  assert (E : drift_correct (set_phase (drift_correct d) p)
              = set_phase2 (set_phase3 (set_phase (drift_correct d) p) 0) p).
  { unfold drift_correct at 1. rewrite H1.
    unfold set_phase at 2 3. cbn [phase phase2]. rewrite Hp2. reflexivity. }
  split; [exact E|].
  rewrite E. unfold drift_consistent.
  unfold set_phase at 3. cbn [phase3 set_phase2 set_phase3 set_phase].
  cbn. now rewrite !andb_false_r.
Qed.

Lemma drift_corrections_are_spaced_witness :
  drift_consistent
    (set_phase (drift_correct
                  (window_end DECODER_DECODE_DATA 1 3 3 (F32.zero, F32.zero)))
               5) = false.
Proof.
  apply (drift_corrections_are_spaced
           (window_end DECODER_DECODE_DATA 1 3 3 (F32.zero, F32.zero)) 5 7).
  reflexivity.
Defined.

(** ** The analyzer: array bounds and windows *)

Lemma array_set_length {A : Type} (a : list A) (f : nat) (x : A) :
  length (array_set a f x) = length a.
Proof.
  revert f. induction a as [|h t IH]; intros [|f]; cbn; auto.
Qed.

Lemma wrap_signed_16_range (z : Z) : is_int16 (wrap_signed 16 z).
Proof.
  unfold is_int16, wrap_signed.
  change (2 ^ (16 - 1)) with 32768. change (2 ^ 16) with 65536.
  pose proof (Z.mod_pos_bound (z + 32768) 65536 ltac:(lia)). lia.
Qed.

Section Analyzer.
Context {L : Libm}.

Lemma add_component_length (fo : fourier) (sample : spec_float)
    (c : list (spec_float * spec_float)) (f : nat) :
  length (add_component fo sample c f) = length c.
Proof.
  unfold add_component.
  destruct (nth f c (F32.zero, F32.zero)) as [s co].
  apply array_set_length.
Qed.

Lemma add_components_length (fo : fourier) (sample : spec_float)
    (carriers : list nat) (c : list (spec_float * spec_float)) :
  length (fold_left (add_component fo sample) carriers c) = length c.
Proof.
  revert c. induction carriers as [|f carriers IH]; intros c; cbn [fold_left];
    [reflexivity|].
  rewrite IH. apply add_component_length.
Qed.

Lemma fourier_add_sample_fields (fo fo' : fourier) (sample : spec_float)
    (complete : bool) :
  fourier_add_sample fo sample = (fo', complete) ->
  fourier_i fo' = short_of (fourier_i fo + 1)
  /\ frequency_count fo' = frequency_count fo
  /\ sample_count fo' = sample_count fo
  /\ length (sincos_components fo') = length (sincos_components fo)
  /\ complete = (sample_count fo <=? short_of (fourier_i fo + 1)).
Proof.
  unfold fourier_add_sample. intros H. inversion H. subst. clear H.
  cbn [fourier_i frequency_count sample_count sincos_components].
  repeat split. apply add_components_length.
Qed.

Lemma fourier_reset_clean (fo : fourier) :
  frequency_count fo = BIT_COUNT ->
  length (sincos_components fo) = Z.to_nat BIT_COUNT ->
  fourier_clean (fourier_reset fo)
  /\ frequency_count (fourier_reset fo) = BIT_COUNT
  /\ sample_count (fourier_reset fo) = sample_count fo.
Proof.
  intros Hc Hl. unfold fourier_clean, fourier_reset.
  cbn [fourier_i frequency_count sample_count sincos_components].
  rewrite Hc. repeat split.
  rewrite firstn_all2, skipn_all2 by lia.
  rewrite app_nil_r, map_const, Hl. reflexivity.
Qed.

Lemma fourier_clean_wf (fo : fourier) :
  fourier_clean fo -> frequency_count fo = BIT_COUNT ->
  -32768 <= sample_count fo < 32768 -> fourier_wf fo.
Proof.
  intros [Hi Hc] Hf Hn. unfold fourier_wf. rewrite Hi, Hc, repeat_length.
  repeat split; try assumption; lia.
Qed.

(** A call of [decoder_decode_byte] on a well-formed analyzer leaves it
    well-formed; a call that completes the window leaves it clean, and if
    it returns end-of-stream the stored phase is 0. *)
Lemma decoder_decode_byte_wf (d d' : decoder) (sample : spec_float) (r : Z) :
  fourier_wf (d_fourier d) ->
  decoder_decode_byte d sample = (d', r) ->
  fourier_wf (d_fourier d')
  /\ (is_int16 (phase d) -> is_int16 (phase d'))
  /\ (r <> DECODER_RET_NO_DATA -> fourier_clean (d_fourier d'))
  /\ (r = DECODER_RET_NO_DATA ->
      phase d' = phase d
      /\ fourier_i (d_fourier d') = fourier_i (d_fourier d) + 1)
  /\ (r = DECODER_RET_EOF -> phase d' = 0).
Proof.
  intros (Hf & Hl & Hi & Hn) Hdec. unfold decoder_decode_byte in Hdec.
  destruct (fourier_add_sample (d_fourier d) sample) as [fo complete] eqn:Hadd.
  destruct (fourier_add_sample_fields _ _ _ _ Hadd)
    as (Hi' & Hf' & Hn' & Hl' & Hc).
  assert (Hw : short_of (fourier_i (d_fourier d) + 1)
               = fourier_i (d_fourier d) + 1)
    by (apply wrap_signed_small; lia).
  rewrite Hw in *.
  destruct complete; inversion Hdec; subst d' r; clear Hdec.
  - destruct (fourier_reset_clean fo) as (Hclean & Hfr & Hnr);
      [congruence | congruence |].
    cbn [d_fourier set_fourier set_phase phase].
    split; [apply fourier_clean_wf; [assumption|assumption|lia]|].
    split.
    { intros _. destruct (Z.land _ 256 =? 0); [unfold is_int16; lia|].
      destruct (nth 0 (sincos_components fo) (F32.zero, F32.zero)).
      apply wrap_signed_16_range. }
    split; [intros _; exact Hclean|].
    split.
    { intros Hr. exfalso.
      destruct (_ =? 0) in Hr; [discriminate Hr|].
      revert Hr. change 255 with (Z.ones 8). rewrite Z.land_ones by lia.
      pose proof (Z.mod_pos_bound
                    (demod_bits (Z.to_nat (frequency_count fo))
                                (fourier_to_frequency fo)) (2 ^ 8)
                    ltac:(lia)).
      unfold DECODER_RET_NO_DATA. lia. }
    intros Hr.
    destruct (Z.eqb_spec
                (demod_bits (Z.to_nat (frequency_count fo))
                            (fourier_to_frequency fo)) 0) as [E|E].
    + rewrite E. reflexivity.
    + exfalso. revert Hr. change 255 with (Z.ones 8).
      rewrite Z.land_ones by lia.
      pose proof (Z.mod_pos_bound
                    (demod_bits (Z.to_nat (frequency_count fo))
                                (fourier_to_frequency fo)) (2 ^ 8)
                    ltac:(lia)).
      unfold DECODER_RET_EOF. lia.
  - cbn [d_fourier set_fourier phase].
    symmetry in Hc. apply Z.leb_gt in Hc.
    split; [unfold fourier_wf; repeat split; try congruence; lia|].
    split; [auto|]. split; [intros Hr; contradiction|].
    split; [intros _; split; [reflexivity|exact Hi']|].
    intros Hr. discriminate Hr.
Qed.

End Analyzer.

Section Windows.
Context {L : Libm}.

Lemma decode_byte_run_window (d : decoder) (samples : list spec_float) :
  fourier_wf (d_fourier d) ->
  samples <> [] ->
  fourier_i (d_fourier d) + Z.of_nat (length samples)
  = sample_count (d_fourier d) ->
  exists r,
    snd (decode_byte_run d samples)
    = repeat DECODER_RET_NO_DATA (length samples - 1) ++ [r]
    /\ r <> DECODER_RET_NO_DATA
    /\ fourier_clean (d_fourier (fst (decode_byte_run d samples)))
    /\ sample_count (d_fourier (fst (decode_byte_run d samples)))
       = sample_count (d_fourier d)
    /\ (r = DECODER_RET_EOF -> phase (fst (decode_byte_run d samples)) = 0).
Proof.
  revert d. induction samples as [|x rest IH]; intros d Hwf Hne Hlen;
    [contradiction|].
  cbn [decode_byte_run].
  destruct (decoder_decode_byte d x) as [d1 r1] eqn:Hdec.
  destruct (decoder_decode_byte_wf d d1 x r1 Hwf Hdec)
    as (Hwf1 & _ & Hclean & Hnodata & Heof).
  pose proof (decoder_decode_byte_frame d x) as (ph & fo & Hd1 & Hn1 & _).
  rewrite Hdec in Hd1. cbn [fst] in Hd1.
  assert (Hn : sample_count (d_fourier d1) = sample_count (d_fourier d))
    by (rewrite Hd1; exact Hn1).
  assert (Hr1 : r1 = DECODER_RET_NO_DATA <-> rest <> []).
  { unfold decoder_decode_byte in Hdec.
    destruct (fourier_add_sample (d_fourier d) x) as [fo' complete] eqn:Hadd.
    destruct (fourier_add_sample_fields _ _ _ _ Hadd) as (_ & _ & _ & _ & Hc).
    destruct Hwf as (_ & _ & Hi & _).
    rewrite wrap_signed_small in Hc by lia.
    cbn [length] in Hlen. rewrite Nat2Z.inj_succ in Hlen.
    destruct complete; inversion Hdec; subst.
    - symmetry in Hc. apply Z.leb_le in Hc.
      split.
      + intros Hr. exfalso.
        destruct (_ =? 0) in Hr; [discriminate Hr|].
        revert Hr. change 255 with (Z.ones 8). rewrite Z.land_ones by lia.
        match goal with |- ?a mod _ = _ -> _ =>
          pose proof (Z.mod_pos_bound a (2 ^ 8) ltac:(lia)) end.
        unfold DECODER_RET_NO_DATA. lia.
      + intros Hrest. destruct rest; [contradiction|]. cbn [length] in Hlen.
        lia.
    - symmetry in Hc. apply Z.leb_gt in Hc.
      split; [|reflexivity]. intros _ ->. cbn [length] in Hlen. lia. }
  destruct rest as [|y rest'].
  - cbn [decode_byte_run fst snd length repeat app Nat.sub].
    exists r1. split; [reflexivity|].
    split; [intros Hr; apply Hr1 in Hr; contradiction|].
    split; [apply Hclean; intros Hr; apply Hr1 in Hr; contradiction|].
    split; [exact Hn | exact Heof].
  - assert (Hnd : r1 = DECODER_RET_NO_DATA) by (apply Hr1; discriminate).
    destruct (Hnodata Hnd) as (_ & Hi1).
    destruct (IH d1 Hwf1 ltac:(discriminate)) as (r & Hout & Hr & Hcl & Hsc & He).
    { rewrite Hi1, Hn. cbn [length] in *. lia. }
    destruct (decode_byte_run d1 (y :: rest')) as [d2 rs] eqn:Hrun.
    cbn [fst snd] in *. exists r. subst r1.
    split.
    { rewrite Hout. cbn [length Nat.sub repeat app].
      rewrite Nat.sub_0_r. reflexivity. }
    split; [exact Hr|]. split; [exact Hcl|]. split; [congruence|exact He].
Qed.

(** A window takes exactly [sample_count] samples: starting at the
    beginning of a window of [n >= 1] samples, the first [n-1] calls of
    [decoder_decode_byte] return "no data yet" and the [n]-th returns a
    byte or end-of-stream, leaves the window length as it was and the
    analyzer at the start of the next window, all accumulators zero. *)
Theorem window_takes_sample_count (d : decoder)
    (samples : list spec_float) :
  fourier_wf (d_fourier d) ->
  fourier_i (d_fourier d) = 0 ->
  0 < sample_count (d_fourier d) ->
  Z.of_nat (length samples) = sample_count (d_fourier d) ->
  exists r,
    snd (decode_byte_run d samples)
    = repeat DECODER_RET_NO_DATA (length samples - 1) ++ [r]
    /\ r <> DECODER_RET_NO_DATA
    /\ fourier_clean (d_fourier (fst (decode_byte_run d samples)))
    /\ sample_count (d_fourier (fst (decode_byte_run d samples)))
       = sample_count (d_fourier d)
    /\ (r = DECODER_RET_EOF -> phase (fst (decode_byte_run d samples)) = 0).
Proof.
  intros Hwf Hi Hpos Hlen. apply decode_byte_run_window.
  - exact Hwf.
  - intros ->. cbn in Hlen. lia.
  - rewrite Hi. lia.
Qed.

End Windows.

(** A window of three silent samples: two calls without data, then
    end-of-stream. *)
Lemma window_takes_sample_count_witness :
  exists r,
    snd (@decode_byte_run SoftLibm.libm
           (set_sample_count decoder_init 3)
           [F32.zero; F32.zero; F32.zero])
    = repeat DECODER_RET_NO_DATA 2 ++ [r]
    /\ r <> DECODER_RET_NO_DATA.
Proof.
  destruct (@window_takes_sample_count SoftLibm.libm
              (set_sample_count decoder_init 3)
              [F32.zero; F32.zero; F32.zero]) as (r & H1 & H2 & _).
  - unfold fourier_wf. cbn. repeat split; lia.
  - reflexivity.
  - cbn. lia.
  - reflexivity.
  - exists r. split; assumption.
Defined.

(** ** Well-formed decoders *)

Ltac ranges_unfold :=
  unfold decoder_ranges, fourier_wf, fourier_clean, is_uint16, is_int16 in *;
  cbv beta iota zeta delta
    [set_state set_polarity set_phase set_phase2 set_phase3 set_baseline
     set_signal_max set_signal_min set_fourier set_sample_count
     state polarity phase phase2 phase3 baseline signal_max signal_min
     d_fourier fourier_i frequency_count sample_count sincos_components]
    in *.

Lemma short_of_range (z : Z) : -32768 <= short_of z < 32768.
Proof. exact (wrap_signed_16_range z). Qed.

Lemma int16_of_range (z : Z) : -32768 <= int16_of z < 32768.
Proof. exact (wrap_signed_16_range z). Qed.

Lemma uint16_of_range (z : Z) : 0 <= uint16_of z < 65536.
Proof. exact (wrap_unsigned_range z). Qed.

Lemma detect_wave_first_half_ranges (d : decoder) (sample : Z) :
  decoder_ranges d -> is_uint16 sample ->
  decoder_ranges (detect_wave_first_half d sample)
  /\ (fourier_clean (d_fourier d) ->
      fourier_clean (d_fourier (detect_wave_first_half d sample))).
Proof.
  intros Hr Hs. unfold detect_wave_first_half.
  rewrite decoder_update_magnitude_spec.
  destruct d as [st pol p p2 p3 base mx mn [i fc n c]].
  pose proof (short_of_range (n + 1)).
  ranges_unfold.
  destruct (mx - mn <? (if pol then mx - sample else sample - mn));
    ranges_unfold; repeat split; try tauto; try lia.
Qed.

Lemma detect_polarity_ranges (d : decoder) (sample : Z) :
  decoder_ranges d -> is_uint16 sample ->
  decoder_ranges (detect_polarity d sample)
  /\ (fourier_clean (d_fourier d) ->
      fourier_clean (d_fourier (detect_polarity d sample))).
Proof.
  intros Hr Hs. unfold detect_polarity.
  rewrite decoder_update_magnitude_spec. cbn [baseline].
  destruct ((TIMING_SIGNAL_THRESHOLD <? sample - baseline d)
            || (sample - baseline d <? - TIMING_SIGNAL_THRESHOLD)).
  - match goal with
    | |- decoder_ranges (detect_wave_first_half ?x _) /\ _ =>
        destruct (detect_wave_first_half_ranges x sample) as [H1 H2]
    end.
    + destruct d as [st pol p p2 p3 base mx mn [i fc n c]].
      ranges_unfold. repeat split; try tauto; try lia.
    + exact Hs.
    + split; [exact H1|]. intros Hc. apply H2.
      destruct d as [st pol p p2 p3 base mx mn [i fc n c]]. exact Hc.
  - destruct d as [st pol p p2 p3 base mx mn [i fc n c]].
    unfold set_baseline.
    pose proof (uint16_of_range (base + Z.quot (sample - base) 8)).
    ranges_unfold. repeat split; try tauto; try lia.
Qed.

Lemma detect_wave_second_half_ranges (d : decoder) (sample : Z) :
  decoder_ranges d -> is_uint16 sample ->
  decoder_ranges (detect_wave_second_half d sample)
  /\ (fourier_clean (d_fourier d) ->
      fourier_clean (d_fourier (detect_wave_second_half d sample))).
Proof.
  intros Hr Hs. unfold detect_wave_second_half.
  rewrite decoder_update_magnitude_spec.
  destruct d as [st pol p p2 p3 base mx mn [i fc n c]].
  pose proof (short_of_range (n + 1)).
  setters.
  destruct (Bool.eqb _ pol).
  - unfold SAMPLE_COUNT_MIN, BIT_COUNT in *.
    destruct (short_of (n + 1) <? 9 * 2 + 1);
      ranges_unfold; repeat split; try tauto; try lia.
  - ranges_unfold. repeat split; try tauto; try lia.
Qed.

Lemma drift_correct_ranges (d : decoder) :
  decoder_ranges d ->
  decoder_ranges (drift_correct d)
  /\ fourier_i (d_fourier (drift_correct d)) = fourier_i (d_fourier d)
  /\ sincos_components (d_fourier (drift_correct d))
     = sincos_components (d_fourier d).
Proof.
  intros Hr. unfold drift_correct.
  destruct d as [st pol p p2 p3 base mx mn [i fc n c]].
  destruct (drift_consistent _);
    unfold set_phase2, set_phase3, set_sample_count, set_fourier.
  - pose proof (short_of_range (n - Z.quot (p + p2 + p3) 3)).
    ranges_unfold. repeat split; try tauto; try lia.
  - ranges_unfold. repeat split; try tauto; try lia.
Qed.

Lemma set_phase_ranges (d : decoder) (p : Z) :
  decoder_ranges d -> is_int16 p -> decoder_ranges (set_phase d p).
Proof.
  destruct d as [st pol p1 p2 p3 base mx mn fo]. unfold set_phase.
  unfold decoder_ranges.
  cbn [state polarity phase phase2 phase3 baseline signal_max signal_min
       d_fourier].
  tauto.
Qed.

Section WellFormed.
Context {L : Libm}.

Lemma decoder_decode_byte_ranges (d d' : decoder) (sample : spec_float)
    (r : Z) :
  decoder_ranges d ->
  decoder_decode_byte d sample = (d', r) ->
  decoder_ranges d'
  /\ (r <> DECODER_RET_NO_DATA -> fourier_clean (d_fourier d')).
Proof.
  intros Hr Hdec.
  destruct (decoder_decode_byte_wf d d' sample r (proj1 Hr) Hdec)
    as (Hwf & Hph & Hclean & _ & _).
  split; [|exact Hclean].
  destruct (decoder_decode_byte_frame d sample) as (ph & fo & Heq & _ & _).
  rewrite Hdec in Heq. cbn [fst] in Heq.
  assert (Hp : is_int16 (phase d')) by (apply Hph; apply Hr).
  rewrite Heq in *.
  unfold decoder_ranges, fourier_wf, is_uint16, is_int16 in *.
  cbn [state polarity phase phase2 phase3 baseline signal_max signal_min
       d_fourier] in *.
  repeat split; tauto.
Qed.

Lemma after_byte_ranges (calibrating : bool) (d : decoder) (byte : Z)
    (fsample : spec_float) :
  decoder_ranges d -> decoder_ranges (after_byte calibrating d byte fsample).
Proof.
  intros Hr. unfold after_byte.
  destruct (drift_correct_ranges d Hr) as (Hr1 & _ & _).
  set (d1 := drift_correct d) in *.
  assert (Hr2 : decoder_ranges
                  (if calibrating && (byte =? 62)
                   then set_state d1 DECODER_DECODE_DATA else d1)).
  { destruct (calibrating && (byte =? 62)); [|exact Hr1].
    destruct d1. exact Hr1. }
  destruct (0 <? phase _); [|exact Hr2].
  match goal with |- decoder_ranges (fst (decoder_decode_byte ?x ?y)) =>
    destruct (decoder_decode_byte x y) as [d3 r] eqn:Hdec end.
  cbn [fst]. apply (decoder_decode_byte_ranges _ _ _ _ Hr2 Hdec).
Qed.

Lemma decoder_decode_wf (d : decoder) (sample : Z) :
  decoder_wf d -> is_uint16 sample ->
  decoder_wf (fst (decoder_decode d sample)).
Proof.
  intros [Hr Hclean] Hs. unfold decoder_wf, decoder_decode.
  destruct (state d) eqn:Hst; cbn [fst].
  - specialize (Hclean ltac:(cbn; lia)).
    destruct d as [st pol p p2 p3 base mx mn [i fc n c]].
    unfold set_sample_count, set_state, set_baseline, set_fourier.
    ranges_unfold. repeat split; try tauto; try lia.
  - specialize (Hclean ltac:(cbn; lia)).
    destruct (detect_polarity_ranges d sample Hr Hs) as [H1 H2]. auto.
  - specialize (Hclean ltac:(cbn; lia)).
    destruct (detect_wave_first_half_ranges d sample Hr Hs) as [H1 H2]. auto.
  - specialize (Hclean ltac:(cbn; lia)).
    destruct (detect_wave_second_half_ranges d sample Hr Hs) as [H1 H2]. auto.
  - unfold detect_calibrate.
    destruct (phase d <? 0).
    { cbn [fst]. split.
      - apply set_phase_ranges; [exact Hr | apply int16_of_range].
      - unfold set_phase. cbn [state]. rewrite Hst. cbn. lia. }
    destruct (decoder_decode_byte d (normalize d sample)) as [d1 byte] eqn:Hdec.
    destruct (decoder_decode_byte_ranges _ _ _ _ Hr Hdec) as [Hr1 Hc1].
    destruct (decoder_decode_byte_frame d (normalize d sample))
      as (ph & fo & Heq & _ & _).
    rewrite Hdec in Heq. cbn [fst] in Heq.
    assert (Hst1 : state d1 = DECODER_DETECT_CALIBRATE)
      by (rewrite Heq; exact Hst).
    destruct (Z.eqb_spec byte DECODER_RET_EOF) as [E|E].
    { cbn [fst]. split.
      - destruct d1. exact Hr1.
      - intros _. destruct d1. apply Hc1. subst byte. discriminate. }
    destruct (0 <=? byte); cbn [fst].
    + split; [apply after_byte_ranges; exact Hr1|].
      destruct (after_byte_frame true d1 byte (normalize d sample))
        as (_ & _ & _ & _ & _ & _ & Hs').
      destruct Hs' as [Hs'|(_ & _ & Hs')]; rewrite Hs';
        [rewrite Hst1|]; cbn; lia.
    + split; [exact Hr1|]. rewrite Hst1. cbn. lia.
  - unfold decode_data.
    destruct (phase d <? 0).
    { cbn [fst]. split.
      - apply set_phase_ranges; [exact Hr | apply int16_of_range].
      - unfold set_phase. cbn [state]. rewrite Hst. cbn. lia. }
    destruct (decoder_decode_byte d (normalize d sample)) as [d1 byte] eqn:Hdec.
    destruct (decoder_decode_byte_ranges _ _ _ _ Hr Hdec) as [Hr1 Hc1].
    destruct (decoder_decode_byte_frame d (normalize d sample))
      as (ph & fo & Heq & _ & _).
    rewrite Hdec in Heq. cbn [fst] in Heq.
    assert (Hst1 : state d1 = DECODER_DECODE_DATA)
      by (rewrite Heq; exact Hst).
    set (d2 := if byte =? DECODER_RET_EOF
               then set_state d1 DECODER_EOF else d1).
    assert (H2 : decoder_ranges d2 /\ 4 <= state_index (state d2)).
    { subst d2. destruct (byte =? DECODER_RET_EOF).
      - split; [destruct d1; exact Hr1 | cbn; lia].
      - split; [exact Hr1 | rewrite Hst1; cbn; lia]. }
    destruct H2 as [Hr2 Hst2].
    destruct (0 <=? byte); cbn [fst].
    + split; [apply after_byte_ranges; exact Hr2|].
      destruct (after_byte_frame false d2 byte (normalize d sample))
        as (_ & _ & _ & _ & _ & _ & Hs').
      destruct Hs' as [Hs'|(Hc & _)]; [|discriminate Hc].
      rewrite Hs'. lia.
    + split; [exact Hr2|lia].
  - rewrite Hst. split; [exact Hr|]. cbn. lia.
Qed.

(** In every state [main] can bring the decoder into, the analyzer has
    its nine carriers and nine accumulator pairs (so no loop of the
    analyzer indexes outside the array), every field lies within the range
    of its C type, the sample index is not negative, the magnitude range is
    not empty, and until Calibrate is reached the analyzer is at the start
    of a window with all accumulators zero. *)
Theorem reachable_well_formed (d : decoder) :
  reachable d ->
  frequency_count (d_fourier d) = BIT_COUNT
  /\ length (sincos_components (d_fourier d)) = Z.to_nat BIT_COUNT
  /\ 0 <= fourier_i (d_fourier d) < 32767
  /\ -32768 <= sample_count (d_fourier d) < 32768
  /\ is_uint16 (baseline d) /\ is_uint16 (signal_max d)
  /\ is_uint16 (signal_min d) /\ signal_min d <= signal_max d
  /\ is_int16 (phase d) /\ is_int16 (phase2 d) /\ is_int16 (phase3 d)
  /\ (state_index (state d) < 4 ->
      fourier_i (d_fourier d) = 0
      /\ sincos_components (d_fourier d)
         = repeat (F32.zero, F32.zero) (Z.to_nat BIT_COUNT)).
Proof.
  intros Hd.
  assert (Hwf : decoder_wf d).
  { induction Hd as [|d sample _ IH Hs].
    - unfold decoder_wf, decoder_ranges, fourier_wf, fourier_clean,
        is_uint16, is_int16. cbn. repeat split; lia.
    - apply decoder_decode_wf; assumption. }
  destruct Hwf as [(Hf & Hb & Hmx & Hmn & Hle & Hp & Hp2 & Hp3) Hc].
  destruct Hf as (H1 & H2 & H3 & H4).
  repeat split; try tauto; try apply H3; try apply H4; try apply Hb;
    try apply Hmx; try apply Hmn; try apply Hp; try apply Hp2;
    try apply Hp3; apply Hc; assumption.
Qed.

End WellFormed.

Lemma reachable_well_formed_witness :
  length (sincos_components
            (d_fourier (@decoder_feed SoftLibm.libm decoder_init short_wave)))
  = Z.to_nat BIT_COUNT.
Proof.
  apply (@reachable_well_formed SoftLibm.libm).
  apply reachable_feed; [apply reachable_init | apply short_wave_uint16].
Defined.

(** ** The demodulated value *)

Lemma demod_bits_high (n : nat) (frequency : list spec_float) (k : Z) :
  9 <= k -> Z.testbit (demod_bits n frequency) k = false.
Proof.
  intros Hk. unfold demod_bits.
  rewrite demod_fold_testbit by lia. rewrite Z.bits_0. cbn [orb].
  apply not_true_is_false. intros Hex.
  apply existsb_exists in Hex as (f & _ & Hf).
  apply andb_true_iff in Hf as [Heq _]. apply Z.eqb_eq in Heq.
  unfold carrier_bit, BIT_COUNT in Heq. lia.
Qed.

Lemma demod_bits_range (n : nat) (frequency : list spec_float) :
  0 <= demod_bits n frequency < 512.
Proof.
  assert (H : Z.land (demod_bits n frequency) (Z.ones 9)
              = demod_bits n frequency).
  { apply Z.bits_inj'. intros k Hk. rewrite Z.land_spec.
    destruct (Z.lt_ge_cases k 9) as [Hlo|Hhi].
    - rewrite Z.ones_spec_low by lia. apply andb_true_r.
    - rewrite demod_bits_high by lia. reflexivity. }
  rewrite Z.land_ones in H by lia. rewrite <- H.
  change 512 with (2 ^ 9). apply Z.mod_pos_bound. lia.
Qed.

(** The demodulator inverts the bit-to-carrier assignment: the value it
    produces is always a 9-bit value, and when the carriers above the
    power threshold are exactly those of the set bits of a 9-bit symbol
    (carrier [f] for bit [8-f]), the value is that symbol. *)
Theorem demod_bits_recovers_symbol (frequency : list spec_float)
    (symbol : Z) :
  0 <= symbol < 512 ->
  (forall f, (f < 9)%nat ->
     F64.gtb (F64.of_float (nth f frequency F32.zero)) power_threshold
     = Z.testbit symbol (8 - Z.of_nat f)) ->
  demod_bits 9 frequency = symbol
  /\ (forall n frequency', 0 <= demod_bits n frequency' < 512).
Proof.
  intros Hs Hf. split; [|intros; apply demod_bits_range].
  apply Z.bits_inj'. intros k Hk.
  destruct (Z.lt_ge_cases k 9) as [Hlo|Hhi].
  - replace k with (carrier_bit (Z.to_nat (8 - k)))
      by (unfold carrier_bit, BIT_COUNT; lia).
    rewrite demod_bits_testbit by lia.
    rewrite Hf by lia.
    replace (0 <=? carrier_bit (Z.to_nat (8 - k))) with true
      by (symmetry; apply Z.leb_le; unfold carrier_bit, BIT_COUNT; lia).
    cbn [andb]. f_equal. unfold carrier_bit, BIT_COUNT. lia.
  - rewrite demod_bits_high by lia. symmetry.
    replace symbol with (symbol mod 2 ^ 9)
      by (apply Z.mod_small; change (2 ^ 9) with 512; lia).
    apply Z.mod_pow2_bits_high. lia.
Qed.

(** Powers 1, 0, 1, 0, 0, 1, 0, 0, 0 on the carriers 0..8: pilot, bit 6
    and bit 3, the symbol of the byte 0x48. *)
Lemma demod_bits_recovers_symbol_witness :
  demod_bits 9 [F32.one; F32.zero; F32.one; F32.zero; F32.zero;
                F32.one; F32.zero; F32.zero; F32.zero]
  = Z.lor 72 SYNC_SIGNAL.
Proof.
  apply (demod_bits_recovers_symbol _ (Z.lor 72 SYNC_SIGNAL)).
  - vm_compute. split; [discriminate|reflexivity].
  - intros f Hf. do 9 (destruct f as [|f]; [vm_compute; reflexivity|]). lia.
Defined.

(** ** The extra demodulation step *)

Section DoubleStep.
Context {L : Libm}.


End DoubleStep.


(** ** The read loop of [main] *)

Section Stream.
Context {L : Libm}.

Lemma decode_stream_eof (d : decoder) (samples : list Z) :
  state d = DECODER_EOF -> decode_stream d samples = (d, []).
Proof.
  intros H. destruct samples as [|x rest]; [reflexivity|].
  cbn [decode_stream]. rewrite (decoder_eof_step d x H). reflexivity.
Qed.

Lemma decode_stream_app_eq (d : decoder) (first rest : list Z) :
  decode_stream d (first ++ rest) =
  (fst (decode_stream (fst (decode_stream d first)) rest),
   snd (decode_stream d first)
   ++ snd (decode_stream (fst (decode_stream d first)) rest)).
Proof.
  revert d. induction first as [|x first IH]; intros d.
  - cbn [app decode_stream fst snd]. apply surjective_pairing.
  - cbn [app decode_stream].
    pose proof (decoder_decode_cases d x) as Hc.
    destruct (decoder_decode d x) as [d' byte]. cbn [fst snd] in Hc.
    destruct (Z.eqb_spec byte DECODER_RET_EOF) as [He|He].
    + assert (Hst : state d' = DECODER_EOF).
      { subst byte. unfold DECODER_RET_EOF, DECODER_RET_NO_DATA in Hc.
        destruct Hc as [Hc|[(_ & [(_ & Hc)|Hc])|(_ & _ & Hc)]];
          [discriminate Hc | exact Hc | lia | exact Hc]. }
      cbn [fst snd]. rewrite (decode_stream_eof d' rest Hst). reflexivity.
    + rewrite IH.
      destruct (decode_stream d' first) as [d1 out1]. cbn [fst snd].
      destruct (0 <=? byte); reflexivity.
Qed.

(** The read loop can be cut anywhere: decoding a stream is decoding a
    first part and then the rest from the decoder the first part leaves;
    and once the first part has brought the decoder to Eof, what follows
    changes neither the decoder nor the output. *)
Theorem decode_stream_app (d : decoder) (first rest : list Z) :
  decode_stream d (first ++ rest) =
  (fst (decode_stream (fst (decode_stream d first)) rest),
   snd (decode_stream d first)
   ++ snd (decode_stream (fst (decode_stream d first)) rest))
  /\ (state (fst (decode_stream d first)) = DECODER_EOF ->
      decode_stream d (first ++ rest) = decode_stream d first).
Proof.
  split; [apply decode_stream_app_eq|].
  intros Hst. rewrite decode_stream_app_eq.
  rewrite (decode_stream_eof _ rest Hst). cbn [fst snd].
  rewrite app_nil_r. symmetry. apply surjective_pairing.
Qed.

(** What [main] prints: bytes 0..255 only, at most one per sample read. *)
Theorem decode_stream_output (d : decoder) (samples : list Z) :
  Forall (fun byte => 0 <= byte <= 255) (snd (decode_stream d samples))
  /\ (length (snd (decode_stream d samples)) <= length samples)%nat.
Proof.
  revert d. induction samples as [|x rest IH]; intros d.
  - cbn. split; [constructor|lia].
  - cbn [decode_stream length].
    pose proof (decoder_decode_cases d x) as Hc.
    destruct (decoder_decode d x) as [d' byte]. cbn [fst snd] in Hc.
    destruct (Z.eqb_spec byte DECODER_RET_EOF) as [He|He].
    + cbn. split; [constructor|lia].
    + specialize (IH d'). destruct (decode_stream d' rest) as [d'' out].
      cbn [snd] in *. destruct IH as [IH1 IH2].
      destruct (Z.leb_spec 0 byte) as [Hb|Hb].
      * cbn [length]. split; [|lia]. constructor; [|exact IH1].
        unfold DECODER_RET_EOF, DECODER_RET_NO_DATA in *.
        destruct Hc as [Hc|[(_ & [(Hc & _)|Hc])|(_ & Hc & _)]]; lia.
      * split; [exact IH1|lia].
Qed.

End Stream.

(** ** The encoder's output and the decoder's input *)

Lemma putchar_range (c : Z) : 0 <= putchar c < 256.
Proof. unfold putchar. apply Z.mod_pos_bound. lia. Qed.

Lemma le32_reassemble (s : Z) :
  0 <= s < 4294967296 ->
  putchar s + 256 * putchar (Z.shiftr s 8) + 65536 * putchar (Z.shiftr s 16)
  + 16777216 * putchar (Z.shiftr s 24) = s.
Proof.
  intros Hs. unfold putchar. rewrite !Z.shiftr_div_pow2 by lia.
  change (2 ^ 8) with 256. change (2 ^ 16) with 65536.
  change (2 ^ 24) with 16777216.
  Z.div_mod_to_equations. lia.
Qed.

(** The four bytes [write_sample] prints are the little-endian bytes of a
    32-bit word, and the read loop of [s2d.c] reads them back as that word
    taken as a signed number, then goes on with what follows. *)
Theorem write_sample_read_back (x : spec_float) (rest : list Z) :
  exists sample,
    0 <= sample < 4294967296
    /\ write_sample x =
       [putchar sample; putchar (Z.shiftr sample 8);
        putchar (Z.shiftr sample 16); putchar (Z.shiftr sample 24)]
    /\ Forall (fun b => 0 <= b < 256) (write_sample x)
    /\ read_samples (write_sample x ++ rest)
       = wrap_signed 32 sample :: read_samples rest.
Proof.
  unfold write_sample.
  set (x1 := if F64.gtb x (F64.of_Z 1) then F64.of_Z 1 else x).
  set (x2 := if F64.ltb x1 (F64.of_Z (-1)) then F64.of_Z (-1) else x1).
  set (sample := uint32_of (float_trunc (F64.mul x2 (F64.of_Z 2147483647)))).
  assert (Hs : 0 <= sample < 4294967296).
  { subst sample. unfold uint32_of, wrap_unsigned.
    change (2 ^ 32) with 4294967296. apply Z.mod_pos_bound. lia. }
  exists sample. split; [exact Hs|]. split; [reflexivity|]. split.
  - repeat constructor; apply putchar_range.
  - cbn [app read_samples]. rewrite (le32_reassemble sample Hs). reflexivity.
Qed.

Lemma write_sample_length (x : spec_float) : length (write_sample x) = 4%nat.
Proof. reflexivity. Qed.

Lemma write_sample_bytes (x : spec_float) :
  Forall (fun b => 0 <= b < 256) (write_sample x).
Proof. unfold write_sample. repeat constructor; apply putchar_range. Qed.

Lemma flat_map_length_const {A B : Type} (f : A -> list B) (n : nat)
    (l : list A) :
  (forall a, length (f a) = n) -> length (flat_map f l) = (length l * n)%nat.
Proof.
  intros H. induction l as [|a l IH]; cbn [flat_map length]; [reflexivity|].
  rewrite length_app, H, IH. lia.
Qed.

Lemma flat_map_Forall {A B : Type} (P : B -> Prop) (f : A -> list B)
    (l : list A) :
  (forall a, Forall P (f a)) -> Forall P (flat_map f l).
Proof.
  intros H. induction l as [|a l IH]; cbn [flat_map]; [constructor|].
  apply Forall_app. split; [apply H|exact IH].
Qed.

Lemma read_samples_app (n : nat) (a b : list Z) :
  length a = (4 * n)%nat ->
  read_samples (a ++ b) = read_samples a ++ read_samples b
  /\ length (read_samples a) = n.
Proof.
  revert a. induction n as [|n IH]; intros a Ha.
  - destruct a; [split; reflexivity|discriminate Ha].
  - destruct a as [|b0 [|b1 [|b2 [|b3 a]]]]; try (cbn in Ha; lia).
    destruct (IH a) as [IH1 IH2]; [cbn in Ha; lia|].
    cbn [app read_samples length]. rewrite IH1, IH2. split; reflexivity.
Qed.

Lemma frame_length (input : list Z) :
  length (frame input) = (13 + length input)%nat.
Proof.
  unfold frame. rewrite !length_app, repeat_length, length_map. cbn. lia.
Qed.

Section EncoderOutput.
Context {L : Libm}.

Lemma print_byte_length (g : spec_float) (ch : Z) :
  length (print_byte g ch) = 80%nat.
Proof.
  unfold print_byte.
  rewrite (flat_map_length_const _ 4); [reflexivity|].
  intros t. apply write_sample_length.
Qed.

Lemma print_byte_bytes (g : spec_float) (ch : Z) :
  Forall (fun b => 0 <= b < 256) (print_byte g ch).
Proof.
  unfold print_byte. apply flat_map_Forall. intros t.
  apply write_sample_bytes.
Qed.

Lemma encode_length (input : list Z) :
  length (encode input) = (4 * (20 * (13 + length input)))%nat.
Proof.
  unfold encode. rewrite (flat_map_length_const _ 80).
  - rewrite frame_length. lia.
  - intros s. apply print_byte_length.
Qed.

(** The layout of what [d2s.c] writes: 44 header bytes, then 80 bytes (20
    samples) for each of the 13 framing symbols and each input byte, all of
    them byte values; read four bytes at a time the header gives 11
    samples, and the symbols stay aligned on sample boundaries behind it. *)
Theorem d2s_output_layout (input : list Z) :
  length (d2s_main input) = (44 + 80 * (13 + length input))%nat
  /\ Forall (fun b => 0 <= b < 256) (d2s_main input)
  /\ read_samples (d2s_main input)
     = read_samples wav_header ++ read_samples (encode input)
  /\ length (read_samples wav_header) = 11%nat
  /\ length (read_samples (encode input))
     = (20 * (13 + length input))%nat.
Proof.
  unfold d2s_main. split.
  { rewrite length_app, encode_length. cbn [length wav_header]. lia. }
  split.
  { apply Forall_app. split.
    - apply Forall_forall. intros b Hb.
      assert (H : forallb (fun b => (0 <=? b) && (b <? 256)) wav_header
                  = true) by (vm_compute; reflexivity).
      rewrite forallb_forall in H. specialize (H b Hb).
      apply andb_true_iff in H as [H1 H2].
      apply Z.leb_le in H1. apply Z.ltb_lt in H2. lia.
    - unfold encode. apply flat_map_Forall. intros s.
      apply print_byte_bytes. }
  split; [apply (read_samples_app 11); reflexivity|].
  split; [reflexivity|].
  apply (read_samples_app _ _ []). apply encode_length.
Qed.

Lemma header_samples_value :
  header_samples = [793; 0; 789; 641; 512; 512; 512; 512; 512; 901; 0].
Proof. vm_compute. reflexivity. Qed.

Lemma decode_header :
  decode_stream decoder_init header_samples = (header_lock, []).
Proof. rewrite header_samples_value. vm_compute. reflexivity. Qed.

Lemma decode_after_header (payload : list Z) :
  snd (decode_stream decoder_init (header_samples ++ payload))
  = snd (decode_stream header_lock payload).
Proof.
  rewrite decode_stream_app_eq, decode_header. reflexivity.
Qed.

(** [s2d.c] does not skip the header: its 11 samples take the fresh
    decoder through a false acquisition (793 as baseline, 0 as trigger, 901
    as the turning point, 0 again as the end of the wave) into Calibrate
    with a 19-sample window, before the first sample of the signal
    arrives; no byte is printed on the way. *)
Theorem wav_header_is_decoded (input : list Z) :
  map pcm_to_sample (read_samples (d2s_main input))
  = header_samples ++ map pcm_to_sample (read_samples (encode input))
  /\ header_samples = [793; 0; 789; 641; 512; 512; 512; 512; 512; 901; 0]
  /\ decode_stream decoder_init header_samples = (header_lock, [])
  /\ s2d_main (d2s_main input)
     = snd (decode_stream header_lock
              (map pcm_to_sample (read_samples (encode input)))).
Proof.
  assert (H1 : map pcm_to_sample (read_samples (d2s_main input))
               = header_samples
                 ++ map pcm_to_sample (read_samples (encode input))).
  { unfold d2s_main, header_samples.
    destruct (read_samples_app 11 wav_header (encode input)) as [E _];
      [reflexivity|].
    rewrite E. apply map_app. }
  split; [exact H1|]. split; [exact header_samples_value|].
  split; [exact decode_header|].
  unfold s2d_main. rewrite H1. apply decode_after_header.
Qed.

(** A symbol without tones is silence whatever the (finite) amplitude:
    all 80 bytes are zero, and the decoder's front end reads them as 20
    samples at mid-scale, 512. *)
Theorem silent_symbol (g : spec_float) :
  g <> S754_nan -> (forall s, g <> S754_infinity s) ->
  print_byte g 0 = repeat 0 80
  /\ map pcm_to_sample (read_samples (print_byte g 0)) = repeat 512 20.
Proof.
  intros Hnan Hinf.
  assert (Hfold : forall t l acc, fold_left (add_tone 0 t) l acc = acc).
  { intros t l. induction l as [|b l IH]; intros acc; [reflexivity|].
    cbn [fold_left]. rewrite IH. unfold add_tone, bit_selected.
    rewrite Z.land_0_l. reflexivity. }
  assert (Hw : forall t, write_sample (symbol_sample g 0 t) = [0; 0; 0; 0]).
  { intros t. unfold symbol_sample. rewrite Hfold.
    destruct g as [s|s| |s m e];
      [ | exfalso; apply (Hinf s); reflexivity
        | exfalso; apply Hnan; reflexivity | ].
    - destruct s; vm_compute; reflexivity.
    - cbv beta iota delta [F64.mul SFmul F64.zero].
      destruct s; vm_compute; reflexivity. }
  assert (Hp : print_byte g 0 = repeat 0 80).
  { unfold print_byte.
    assert (G : forall l : list nat,
              flat_map (fun t => write_sample
                                   (symbol_sample g 0 (Z.of_nat t))) l
              = repeat 0 (4 * length l)).
    { induction l as [|t l IH]; [reflexivity|].
      cbn [flat_map length]. rewrite IH, Hw.
      replace (4 * S (length l))%nat with (4 + 4 * length l)%nat by lia.
      reflexivity. }
    rewrite G. reflexivity. }
  split; [exact Hp|]. rewrite Hp. vm_compute. reflexivity.
Qed.

End EncoderOutput.

Lemma silent_symbol_witness :
  @print_byte SoftLibm.libm (F64.of_Z 1) 0 = repeat 0 80
  /\ map pcm_to_sample (read_samples (@print_byte SoftLibm.libm (F64.of_Z 1) 0))
     = repeat 512 20.
Proof.
  apply (@silent_symbol SoftLibm.libm (F64.of_Z 1)).
  - vm_compute. discriminate.
  - intros s. vm_compute. discriminate.
Defined.

Lemma lor_sync_signal (ch : Z) :
  0 <= ch < 256 ->
  Z.testbit (Z.lor ch SYNC_SIGNAL) 8 = true
  /\ Z.land (Z.lor ch SYNC_SIGNAL) 255 = ch
  /\ 0 <= Z.lor ch SYNC_SIGNAL < 512.
Proof.
  intros Hch. unfold SYNC_SIGNAL.
  assert (Hhigh : forall k, 8 <= k -> Z.testbit ch k = false).
  { intros k Hk. replace ch with (ch mod 2 ^ 8)
      by (apply Z.mod_small; change (2 ^ 8) with 256; lia).
    apply Z.mod_pow2_bits_high. lia. }
  assert (Hland : Z.land ch 256 = 0).
  { apply Z.bits_inj'. intros k Hk. rewrite Z.land_spec, Z.bits_0.
    change 256 with (2 ^ 8). rewrite Z.pow2_bits_eqb by lia.
    destruct (Z.eqb_spec 8 k) as [E|E]; [|apply andb_false_r].
    subst k. rewrite Hhigh by lia. reflexivity. }
  assert (Hsum : Z.lor ch 256 = ch + 256).
  { rewrite <- Z.lxor_lor by exact Hland.
    symmetry. apply Z.add_nocarry_lxor. exact Hland. }
  split.
  { rewrite Z.lor_spec. change (Z.testbit 256 8) with true.
    apply orb_true_r. }
  split; [|lia].
  rewrite Hsum. change 255 with (Z.ones 8). rewrite Z.land_ones by lia.
  change (2 ^ 8) with 256.
  replace (ch + 256) with (ch + 1 * 256) by lia.
  rewrite Z.mod_add by lia. apply Z.mod_small. lia.
Qed.

(** The frame around the input bytes: 13 framing symbols; every symbol is
    either silence (0) or carries the pilot bit 8, and is a 9-bit value;
    full amplitude is used for silence and the bare pilot only; and behind
    the 11 symbols of the preamble the low eight bits of the symbols are
    the input bytes, followed by the two silent symbols of the
    terminator. *)
Theorem frame_symbols (input : list Z) :
  Forall (fun ch => 0 <= ch < 256) input ->
  length (frame input) = (13 + length input)%nat
  /\ Forall (fun s =>
               (snd s = 0 \/ Z.testbit (snd s) 8 = true)
               /\ 0 <= snd s < 512
               /\ (fst s = F64.of_Z 1 -> snd s = 0 \/ snd s = SYNC_SIGNAL))
            (frame input)
  /\ map (fun s => Z.land (snd s) 255) (skipn 11 (frame input))
     = input ++ [0; 0].
Proof.
  intros Hin. split; [apply frame_length|]. split.
  - unfold frame. repeat (apply Forall_app; split).
    + repeat constructor; cbn [fst snd]; auto; lia.
    + apply Forall_forall. intros s Hs. apply repeat_spec in Hs. subst s.
      cbn [fst snd]. unfold SYNC_SIGNAL. repeat split; auto; lia.
    + constructor; [|constructor]. cbn [fst snd].
      destruct (lor_sync_signal 62) as (H1 & _ & H3); [lia|].
      repeat split; auto; try lia.
      intros H. vm_compute in H. discriminate H.
    + apply Forall_forall. intros s Hs. apply in_map_iff in Hs
        as (ch & Hs & Hch). subst s. cbn [fst snd].
      rewrite Forall_forall in Hin.
      destruct (lor_sync_signal ch (Hin ch Hch)) as (H1 & _ & H3).
      repeat split; auto; try lia.
      intros H. vm_compute in H. discriminate H.
    + repeat constructor; cbn [fst snd]; auto; try lia;
        intros H; vm_compute in H; discriminate H.
  - unfold frame. cbn [app repeat skipn].
    rewrite map_app, map_map. cbn [snd map].
    f_equal.
    induction Hin as [|ch input Hch Hin IH]; [reflexivity|].
    cbn [map]. rewrite IH.
    destruct (lor_sync_signal ch Hch) as (_ & H2 & _). rewrite H2.
    reflexivity.
Qed.

Lemma frame_symbols_witness :
  map (fun s => Z.land (snd s) 255) (skipn 11 (frame [72])) = [72; 0; 0].
Proof.
  apply (frame_symbols [72]). repeat constructor.
  - discriminate.
Defined.

(** ** The window length on the encoder's own signal *)

(** The first 123 samples of the signal are the same for every input:
    they lie within the ten symbols of the lead-in and the preamble. *)
Lemma frame_preamble_samples (input : list Z) :
  firstn 123 (map pcm_to_sample (read_samples (@encode SoftLibm.libm input)))
  = firstn 123 (map pcm_to_sample (read_samples (@encode SoftLibm.libm []))).
Proof.
  assert (H : forall input,
             firstn 123 (map pcm_to_sample
                           (read_samples (@encode SoftLibm.libm input)))
             = firstn 123
                 (map pcm_to_sample
                    (read_samples
                       (flat_map
                          (fun s => @print_byte SoftLibm.libm (fst s) (snd s))
                          ([(F64.of_Z 1, 0); (F64.of_Z 1, 0)]
                           ++ repeat (F64.of_Z 1, SYNC_SIGNAL) 8))))).
  { clear input. intros input. unfold encode, frame.
    rewrite (app_assoc [(F64.of_Z 1, 0); (F64.of_Z 1, 0)]).
    rewrite flat_map_app.
    destruct (read_samples_app 200
                (flat_map
                   (fun s => @print_byte SoftLibm.libm (fst s) (snd s))
                   ([(F64.of_Z 1, 0); (F64.of_Z 1, 0)]
                    ++ repeat (F64.of_Z 1, SYNC_SIGNAL) 8))
                (flat_map
                   (fun s => @print_byte SoftLibm.libm (fst s) (snd s))
                   ([(F64.lit_0_16, Z.lor 62 SYNC_SIGNAL)]
                    ++ map (fun ch => (F64.lit_0_16, Z.lor ch SYNC_SIGNAL))
                         input
                    ++ [(F64.lit_0_16, 0); (F64.lit_0_16, 0)])))
      as [Happ Hlen].
    { rewrite (flat_map_length_const _ 80);
        [reflexivity | intros s; apply print_byte_length]. }
    rewrite Happ, map_app, firstn_app, length_map, Hlen.
    cbn [Nat.sub firstn]. apply app_nil_r. }
  rewrite (H input), (H []). reflexivity.
Qed.

(** C6 fails on the encoder's own signal: for every input, the first 123
    samples (the lead-in and the first pilot symbols) bring the decoder
    into a reachable Calibrate state whose window length is 18, below
    [SAMPLE_COUNT_MIN] = 19: the first estimate is 21 samples, three
    measurements of +3 follow, and the drift statement subtracts their
    average without applying the floor again. *)
Theorem window_length_below_floor (input : list Z) :
  let samples :=
    firstn 123
      (map pcm_to_sample (read_samples (@encode SoftLibm.libm input))) in
  let d := @decoder_feed SoftLibm.libm decoder_init samples in
  @reachable SoftLibm.libm d
  /\ state d = DECODER_DETECT_CALIBRATE
  /\ sample_count (d_fourier d) = 18
  /\ sample_count (d_fourier d) < SAMPLE_COUNT_MIN.
Proof.
  cbv zeta. rewrite frame_preamble_samples.
  remember (firstn 123 (map pcm_to_sample
                            (read_samples (@encode SoftLibm.libm []))))
    as samples eqn:Hsamples.
  vm_compute in Hsamples. subst samples.
  split.
  { apply reachable_feed; [apply reachable_init|].
    apply forallb_is_uint16. vm_compute. reflexivity. }
  match goal with
  | |- state ?d = _ /\ _ =>
      assert (H : state d = DECODER_DETECT_CALIBRATE
                  /\ sample_count (d_fourier d) = 18)
  end.
  { apply (project_both state (fun d => sample_count (d_fourier d))).
    vm_compute. reflexivity. }
  destruct H as [H1 H2].
  split; [exact H1|]. split; [exact H2|]. rewrite H2. reflexivity.
Qed.
